(** * TRENDENCE: the mini agent workflow engine (app/engine.py, app/main.py)

    A shallow embedding of the graph execution engine and of graph
    creation, with the properties of the engine's specification stated
    and proved over it.

    Python objects live in a heap: a dict or a list is a heap cell and a
    value of type [Any] is either immediate (None, a bool, an int, a str)
    or a reference to a cell, so that two dicts holding the same list
    share it, as they do in Python.  Numbers are integers ([Z]); floats
    are outside the model.  Strings are their UTF-8 bytes, whose
    lexicographic order is the order of code points.

    The loop of [execute_graph] is modelled for one run: a tool that is
    awaited is taken to return or to raise an [Exception], and what other
    tasks do in the meantime is outside the model.  The loop has no bound
    in the source; here it runs on fuel, and the properties say which
    fuel gives the result. *)

From stdpp Require Import gmap strings list fin_maps.
From Stdlib Require Import ZArith.

Set Warnings "-register-all".

Open Scope string_scope.
Open Scope Z_scope.
Open Scope list_scope.

(** ** Values, heap objects and literals *)

Definition loc := nat.

Inductive pyval : Type :=
| VNone
| VBool (b : bool)
| VInt (n : Z)
| VStr (s : string)
| VRef (l : loc).

Inductive pyobj : Type :=
| OList (xs : list pyval)
| ODict (d : gmap string pyval).

Abbreviation heap := (list pyobj).

(** A value that came out of a request body and that nothing mutates
    afterwards (an edge's [value]): a finite tree.  A [LDict] lists the
    items of a dict, so its keys are pairwise distinct. *)
Inductive literal : Type :=
| LNone
| LBool (b : bool)
| LInt (n : Z)
| LStr (s : string)
| LList (xs : list literal)
| LDict (kvs : list (string * literal)).

(** Exceptions ([Exception] and its subclasses, which is what
    [except Exception] catches).  [KeyError] carries its argument; the
    last constructor stands for any other exception a tool raises. *)
Inductive exn : Type :=
| KeyError (arg : string)
| TypeError
| AttributeError
| ValidationError
| ToolException (msg : string).

Inductive result (A : Type) : Type :=
| Ok (a : A)
| Raise (e : exn).
Arguments Ok {A} a.
Arguments Raise {A} e.

(** ** Python's comparisons on these values *)

(** bool is a subclass of int: [True == 1], [False < 1]. *)
Definition as_int (a : pyval) : option Z :=
  match a with
  | VBool b => Some (Z.b2z b)
  | VInt n => Some n
  | _ => None
  end.

(** [a == b].  Lists are equal when they have the same length and equal
    items; dicts when they have the same size and every key of one is a
    key of the other with an equal value.  Never raises. *)
Fixpoint py_eq (h : heap) (a : pyval) (b : literal) {struct b} : bool :=
  match b with
  | LNone => match a with VNone => true | _ => false end
  | LBool c => match as_int a with Some n => n =? Z.b2z c | None => false end
  | LInt m => match as_int a with Some n => n =? m | None => false end
  | LStr t => match a with VStr s => String.eqb s t | _ => false end
  | LList ys =>
      match a with
      | VRef l =>
          match h !! l with
          | Some (OList xs) =>
              (fix items (xs : list pyval) (ys : list literal) {struct ys} : bool :=
                 match xs, ys with
                 | [], [] => true
                 | x :: xs', y :: ys' => py_eq h x y && items xs' ys'
                 | _, _ => false
                 end) xs ys
          | _ => false
          end
      | _ => false
      end
  | LDict kvs =>
      match a with
      | VRef l =>
          match h !! l with
          | Some (ODict d) =>
              Nat.eqb (size d) (length kvs) &&
              (fix items (kvs : list (string * literal)) {struct kvs} : bool :=
                 match kvs with
                 | [] => true
                 | (k, y) :: kvs' =>
                     match d !! k with
                     | Some x => py_eq h x y
                     | None => false
                     end && items kvs'
                 end) kvs
          | _ => false
          end
      | _ => false
      end
  end.

(** The operators of an edge ([Literal["eq", ..., "gte"]]). *)
Inductive Operator : Type := OpEq | OpNe | OpLt | OpGt | OpLte | OpGte.

Definition int_order (op : Operator) (x y : Z) : bool :=
  match op with
  | OpLt => x <? y
  | OpGt => y <? x
  | OpLte => x <=? y
  | OpGte => y <=? x
  | OpEq => x =? y
  | OpNe => negb (x =? y)
  end.

Definition str_order (op : Operator) (s t : string) : bool :=
  match op with
  | OpLt => String.ltb s t
  | OpGt => String.ltb t s
  | OpLte => String.leb s t
  | OpGte => String.leb t s
  | OpEq => String.eqb s t
  | OpNe => negb (String.eqb s t)
  end.

(** [a < b], [a > b], [a <= b], [a >= b] for [op] one of the four
    ordering operators.  Numbers order with numbers, strings with
    strings; lists order lexicographically: the first pair of items that
    are not [==] decides, with [op] itself, and when one list is a prefix
    of the other the sizes decide (what is left of each list here, their
    common prefix having the same length).  Everything else is a
    [TypeError]: None, dicts, and values of different kinds. *)
Fixpoint py_order (h : heap) (op : Operator) (a : pyval) (b : literal)
  {struct b} : result bool :=
  match b with
  | LBool c =>
      match as_int a with
      | Some n => Ok (int_order op n (Z.b2z c))
      | None => Raise TypeError
      end
  | LInt m =>
      match as_int a with
      | Some n => Ok (int_order op n m)
      | None => Raise TypeError
      end
  | LStr t =>
      match a with
      | VStr s => Ok (str_order op s t)
      | _ => Raise TypeError
      end
  | LList ys =>
      match a with
      | VRef l =>
          match h !! l with
          | Some (OList xs) =>
              (fix items (xs : list pyval) (ys : list literal) {struct ys}
                 : result bool :=
                 match xs, ys with
                 | x :: xs', y :: ys' =>
                     if py_eq h x y then items xs' ys' else py_order h op x y
                 | _, _ =>
                     Ok (int_order op (Z.of_nat (length xs)) (Z.of_nat (length ys)))
                 end) xs ys
          | _ => Raise TypeError
          end
      | _ => Raise TypeError
      end
  | LNone | LDict _ => Raise TypeError
  end.

(** engine.py, [_compare].  The operator is one of the six literals, so
    the final [raise ValueError] of the source is out of reach. *)
Definition _compare (h : heap) (a : pyval) (op : Operator) (b : literal)
  : result bool :=
  match op with
  | OpEq => Ok (py_eq h a b)
  | OpNe => Ok (negb (py_eq h a b))
  | OpLt => py_order h OpLt a b
  | OpGt => py_order h OpGt a b
  | OpLte => py_order h OpLte a b
  | OpGte => py_order h OpGte a b
  end.

(** ** Graph and run models (engine.py) *)

Module NodeDef.
Record t : Type := mk { name : string; tool : string }.
End NodeDef.

Module EdgeDef.
Record t : Type := mk {
  from_node : string;
  to_node : string;
  condition_key : option string;
  operator : Operator;
  value : literal
}.
End EdgeDef.

Module GraphDef.
Record t : Type := mk {
  id : string;
  nodes : gmap string NodeDef.t;
  edges : list EdgeDef.t;
  start_node : string
}.
End GraphDef.

Inductive RunStatus : Type := PENDING | RUNNING | COMPLETED | FAILED.

Module RunLogEntry.
Record t : Type := mk { node : string; state_snapshot : loc }.
End RunLogEntry.

(** [state] holds whatever the last tool returned: a reference to a dict
    when the tool keeps to its signature. *)
Module Run.
Record t : Type := mk {
  id : string;
  graph_id : string;
  status : RunStatus;
  current_node : option string;
  state : pyval;
  log : list RunLogEntry.t;
  error : option string
}.

Definition set_status (s : RunStatus) (r : t) : t :=
  mk (id r) (graph_id r) s (current_node r) (state r) (log r) (error r).
Definition set_current_node (n : option string) (r : t) : t :=
  mk (id r) (graph_id r) (status r) n (state r) (log r) (error r).
Definition set_state (v : pyval) (r : t) : t :=
  mk (id r) (graph_id r) (status r) (current_node r) v (log r) (error r).
Definition log_append (e : RunLogEntry.t) (r : t) : t :=
  mk (id r) (graph_id r) (status r) (current_node r) (state r)
     (log r ++ [e]) (error r).
Definition set_error (m : option string) (r : t) : t :=
  mk (id r) (graph_id r) (status r) (current_node r) (state r) (log r) m.
End Run.

(** ** Tool registry (engine.py, [ToolRegistry]) *)

(** A registered tool, once awaited: it receives the state, may mutate
    any object of the heap and allocate new ones, and returns a value or
    raises; what it did to the heap stays done in both cases. *)
Abbreviation ToolFunc := (pyval -> heap -> result pyval * heap).

Module ToolRegistry.
Definition register (name : string) (func : ToolFunc)
    (_tools : gmap string ToolFunc) : gmap string ToolFunc :=
  <[name := func]> _tools.

Definition get (_tools : gmap string ToolFunc) (name : string)
    : result ToolFunc :=
  match _tools !! name with
  | Some f => Ok f
  | None => Raise (KeyError ("Tool '" +:+ name +:+ "' is not registered"))
  end.
End ToolRegistry.

(** ** Edge selection (engine.py, [_next_node_name]) *)

(** [state.get(key)] on the value held by [run.state]. *)
Definition state_get (h : heap) (state : pyval) (key : string) : result pyval :=
  match state with
  | VRef l =>
      match h !! l with
      | Some (ODict d) => Ok (default VNone (d !! key))
      | _ => Raise AttributeError
      end
  | _ => Raise AttributeError
  end.

(** The test one candidate edge goes through in the loop of
    [_next_node_name]: does the loop return at this edge? *)
Definition edge_matches (h : heap) (state : pyval) (edge : EdgeDef.t)
  : result bool :=
  match EdgeDef.condition_key edge with
  | None => Ok true
  | Some key =>
      match state_get h state key with
      | Ok value_in_state =>
          _compare h value_in_state (EdgeDef.operator edge) (EdgeDef.value edge)
      | Raise e => Raise e
      end
  end.

Fixpoint first_match (h : heap) (state : pyval) (candidates : list EdgeDef.t)
  : result (option string) :=
  match candidates with
  | [] => Ok None
  | edge :: rest =>
      match edge_matches h state edge with
      | Ok true => Ok (Some (EdgeDef.to_node edge))
      | Ok false => first_match h state rest
      | Raise e => Raise e
      end
  end.

Definition from_nodeb (node_name : string) (e : EdgeDef.t) : bool :=
  String.eqb (EdgeDef.from_node e) node_name.

Definition _next_node_name (h : heap) (graph : GraphDef.t) (node_name : string)
    (state : pyval) : result (option string) :=
  let candidates := List.filter (from_nodeb node_name) (GraphDef.edges graph) in
  first_match h state candidates.

(** ** The run loop (engine.py, [execute_graph]) *)

(** The loop works on one run and on the heap, and any of its steps may
    raise; what was written before an exception stays written. *)
Definition M (A : Type) : Type := Run.t * heap -> result A * (Run.t * heap).

#[global] Instance M_ret : MRet M := fun A a s => (Ok a, s).

#[global] Instance M_bind : MBind M := fun A B k m s =>
  match m s with
  | (Ok a, s') => k a s'
  | (Raise e, s') => (Raise e, s')
  end.

Definition lift {A : Type} (r : result A) : M A := fun s => (r, s).

Definition get_run : M Run.t := fun s => (Ok (fst s), s).

Definition get_heap : M heap := fun s => (Ok (snd s), s).

Definition update_run (f : Run.t -> Run.t) : M unit :=
  fun s => (Ok tt, (f (fst s), snd s)).

(** A new object: it goes to the next free location. *)
Definition alloc (o : pyobj) : M loc :=
  fun s => (Ok (List.length (snd s)), (fst s, snd s ++ [o])).

(** [await tool(state)]. *)
Definition await (tool : ToolFunc) (state : pyval) : M pyval :=
  fun s => let (res, h') := tool state (snd s) in (res, (fst s, h')).

(** [graph.nodes[node_name]]. *)
Definition nodes_getitem (nodes : gmap string NodeDef.t) (node_name : string)
  : result NodeDef.t :=
  match nodes !! node_name with
  | Some n => Ok n
  | None => Raise (KeyError node_name)
  end.

(** [state.copy()]: a dict and a list both have it, and it is shallow:
    the new object holds the same values, so the same references. *)
Definition copy (state : pyval) : M pyval :=
  h ← get_heap;
  match state with
  | VRef l =>
      match h !! l with
      | Some o => l' ← alloc o; mret (VRef l')
      | None => lift (Raise AttributeError)
      end
  | _ => lift (Raise AttributeError)
  end.

(** [RunLogEntry(node=..., state_snapshot=...)]: the field is declared
    [Dict[str, Any]], and the construction of the entry refuses a
    snapshot that is not a dict (the copy of a list, which has [copy]
    too); the values of the dict are of type [Any] and are kept as they
    are. *)
Definition RunLogEntry_new (node : string) (state_snapshot : pyval)
  : M RunLogEntry.t :=
  h ← get_heap;
  match state_snapshot with
  | VRef l =>
      match h !! l with
      | Some (ODict _) => mret (RunLogEntry.mk node l)
      | _ => lift (Raise ValidationError)
      end
  | _ => lift (Raise ValidationError)
  end.

Section Engine.

(** Python's [str] on an exception. *)
Variable str : exn -> string.

(** The module-level [tool_registry], as it is while the run lasts. *)
Variable tool_registry : gmap string ToolFunc.

(** One turn of the [while] loop at [node_name]; the result is the next
    value of [node_name]. *)
Definition visit (graph : GraphDef.t) (node_name : string) : M (option string) :=
  update_run (Run.set_current_node (Some node_name));;
  node ← lift (nodes_getitem (GraphDef.nodes graph) node_name);
  tool ← lift (ToolRegistry.get tool_registry (NodeDef.tool node));
  run ← get_run;
  new_state ← await tool (Run.state run);
  update_run (Run.set_state new_state);;
  run ← get_run;
  snapshot ← copy (Run.state run);
  entry ← RunLogEntry_new node_name snapshot;
  update_run (Run.log_append entry);;
  run ← get_run;
  h ← get_heap;
  lift (_next_node_name h graph node_name (Run.state run)).

(** [while node_name is not None: ...].  The loop has no bound in the
    source; [fuel] bounds the number of turns here, and [None] says it
    was not enough. *)
Fixpoint while_loop (fuel : nat) (graph : GraphDef.t)
    (node_name : option string) (s : Run.t * heap)
  : option (result unit * (Run.t * heap)) :=
  match node_name with
  | None => Some (Ok tt, s)
  | Some n =>
      match fuel with
      | O => None
      | S fuel' =>
          match visit graph n s with
          | (Ok next, s') => while_loop fuel' graph next s'
          | (Raise e, s') => Some (Raise e, s')
          end
      end
  end.

Definition execute_graph (fuel : nat) (graph : GraphDef.t)
    (run : Run.t) (h : heap) : option (Run.t * heap) :=
  let run := Run.set_status RUNNING run in
  match while_loop fuel graph (Some (GraphDef.start_node graph)) (run, h) with
  | None => None
  | Some (Ok _, (run, h)) =>
      Some (Run.set_status COMPLETED (Run.set_current_node None run), h)
  | Some (Raise exc, (run, h)) =>
      Some (Run.set_error (Some (str exc)) (Run.set_status FAILED run), h)
  end.

End Engine.

(** ** Graph creation (main.py, [create_graph]) *)

Module GraphCreateRequest.
Record t : Type := mk {
  nodes : list NodeDef.t;
  edges : list EdgeDef.t;
  start_node : string
}.
End GraphCreateRequest.

Inductive HTTPException : Type :=
| mkHTTPException (status_code : Z) (detail : string).

(** [{n.name: n for n in req.nodes}]: a later item with a name already
    seen overwrites the earlier one. *)
Definition nodes_dict (nodes : list NodeDef.t) : gmap string NodeDef.t :=
  foldl (fun d n => <[NodeDef.name n := n]> d) ∅ nodes.

(** [graph_id] is the [str(uuid.uuid4())] drawn by the call; the result
    is the response (the new graph's id) or the exception raised, with
    the [GRAPHS] store as the call leaves it. *)
Definition create_graph (graph_id : string) (req : GraphCreateRequest.t)
    (GRAPHS : gmap string GraphDef.t)
  : (HTTPException + string) * gmap string GraphDef.t :=
  let nodes_dict := nodes_dict (GraphCreateRequest.nodes req) in
  match nodes_dict !! GraphCreateRequest.start_node req with
  | None =>
      (inl (mkHTTPException 400 "start_node must be one of the nodes"), GRAPHS)
  | Some _ =>
      let graph :=
        GraphDef.mk graph_id nodes_dict (GraphCreateRequest.edges req)
                    (GraphCreateRequest.start_node req) in
      (inr graph_id, <[graph_id := graph]> GRAPHS)
  end.

(** ** Notions the properties are stated with *)

(** [visits reg graph c ns c']: from the loop at [c] (the value of
    [node_name] with the run and the heap), the turns at the nodes [ns],
    none of which raises, lead to the loop at [c']. *)
Inductive visits (reg : gmap string ToolFunc) (graph : GraphDef.t)
  : option string * (Run.t * heap) -> list string
    -> option string * (Run.t * heap) -> Prop :=
| visits_nil c : visits reg graph c [] c
| visits_cons n s next s' ns c :
    visit reg graph n s = (Ok next, s') ->
    visits reg graph (next, s') ns c ->
    visits reg graph (Some n, s) (n :: ns) c.

(** The step of a visit at which an exception is raised. *)
Inductive failing_step : Type :=
| NodeLookup | ToolResolution | ToolInvocation | Logging | EdgeEvaluation.

(** What [execute_graph] makes of the way its loop ended: the two
    assignments after the loop, or the [except] clause. *)
Definition settle (str : exn -> string)
    (ended : option (result unit * (Run.t * heap))) : option (Run.t * heap) :=
  match ended with
  | None => None
  | Some (Ok _, (run, h)) =>
      Some (Run.set_status COMPLETED (Run.set_current_node None run), h)
  | Some (Raise exc, (run, h)) =>
      Some (Run.set_error (Some (str exc)) (Run.set_status FAILED run), h)
  end.

(** Where a run starts its loop. *)
Definition start (graph : GraphDef.t) (run : Run.t) (h : heap)
  : option string * (Run.t * heap) :=
  (Some (GraphDef.start_node graph), (Run.set_status RUNNING run, h)).

(** The logging step of a visit: the copy of the state and the entry
    built on it. *)
Definition logging (n : string) (new_state : pyval) : M RunLogEntry.t :=
  snapshot ← copy new_state; RunLogEntry_new n snapshot.

(** [raises_at reg graph n r h step exc]: the visit of [n], from the run
    [r] and the heap [h], raises [exc] at [step], the steps before it
    having gone through. *)
Inductive raises_at (reg : gmap string ToolFunc) (graph : GraphDef.t)
    (n : string) (r : Run.t) (h : heap) : failing_step -> exn -> Prop :=
| raises_node_lookup :
    GraphDef.nodes graph !! n = None ->
    raises_at reg graph n r h NodeLookup (KeyError n)
| raises_tool_resolution node exc :
    GraphDef.nodes graph !! n = Some node ->
    ToolRegistry.get reg (NodeDef.tool node) = Raise exc ->
    raises_at reg graph n r h ToolResolution exc
| raises_tool_invocation node tool exc h1 :
    GraphDef.nodes graph !! n = Some node ->
    ToolRegistry.get reg (NodeDef.tool node) = Ok tool ->
    tool (Run.state r) h = (Raise exc, h1) ->
    raises_at reg graph n r h ToolInvocation exc
| raises_logging node tool new_state h1 exc s' :
    GraphDef.nodes graph !! n = Some node ->
    ToolRegistry.get reg (NodeDef.tool node) = Ok tool ->
    tool (Run.state r) h = (Ok new_state, h1) ->
    logging n new_state (r, h1) = (Raise exc, s') ->
    raises_at reg graph n r h Logging exc
| raises_edge_evaluation node tool new_state h1 entry r' h2 exc :
    GraphDef.nodes graph !! n = Some node ->
    ToolRegistry.get reg (NodeDef.tool node) = Ok tool ->
    tool (Run.state r) h = (Ok new_state, h1) ->
    logging n new_state (r, h1) = (Ok entry, (r', h2)) ->
    _next_node_name h2 graph n new_state = Raise exc ->
    raises_at reg graph n r h EdgeEvaluation exc.

(** The entries a failing visit leaves in the log. *)
Definition logged_by_failing_visit (n : string) (step : failing_step)
  : list string :=
  match step with
  | EdgeEvaluation => [n]
  | _ => []
  end.

(** C3 as the specification words it: whatever the step that raises,
    the log holds the entries of the nodes visited before the failing
    node and no other. *)
Definition failure_log_as_claimed : Prop :=
  forall str reg graph run h ns n r hn exc s' fuel,
    visits reg graph (start graph run h) ns (Some n, (r, hn)) ->
    visit reg graph n (r, hn) = (Raise exc, s') ->
    (List.length ns < fuel)%nat ->
    exists run' h',
      execute_graph str reg fuel graph run h = Some (run', h')
      /\ Run.status run' = FAILED
      /\ Run.error run' = Some (str exc)
      /\ Run.current_node run' = Some n
      /\ map RunLogEntry.node (Run.log run')
         = map RunLogEntry.node (Run.log run) ++ ns.

(** The kinds of values Python orders or refuses to order. *)
Inductive kind : Type := KNone | KNumber | KStr | KList | KDict.

Definition kind_of (h : heap) (a : pyval) : option kind :=
  match a with
  | VNone => Some KNone
  | VBool _ | VInt _ => Some KNumber
  | VStr _ => Some KStr
  | VRef l =>
      match h !! l with
      | Some (OList _) => Some KList
      | Some (ODict _) => Some KDict
      | None => None
      end
  end.

Definition literal_kind (b : literal) : kind :=
  match b with
  | LNone => KNone
  | LBool _ | LInt _ => KNumber
  | LStr _ => KStr
  | LList _ => KList
  | LDict _ => KDict
  end.

Definition is_ordering (op : Operator) : Prop :=
  match op with
  | OpLt | OpGt | OpLte | OpGte => True
  | OpEq | OpNe => False
  end.

(** Values that have no order between them: values of different kinds,
    two None, two dicts, and two lists whose first items that differ
    have no order between them. *)
Inductive incomparable (h : heap) : pyval -> literal -> Prop :=
| incomparable_kinds a b :
    kind_of h a <> Some (literal_kind b) -> incomparable h a b
| incomparable_none a : incomparable h a LNone
| incomparable_dict a kvs : incomparable h a (LDict kvs)
| incomparable_items l same_x x xs same_y y ys :
    h !! l = Some (OList (same_x ++ x :: xs)) ->
    Forall2 (fun a b => py_eq h a b = true) same_x same_y ->
    py_eq h x y = false ->
    incomparable h x y ->
    incomparable h (VRef l) (LList (same_y ++ y :: ys)).

(** The order of the items of two lists, as [py_order] computes it. *)
Definition order_items (h : heap) (op : Operator)
  : list pyval -> list literal -> result bool :=
  fix items (xs : list pyval) (ys : list literal) {struct ys} : result bool :=
    match xs, ys with
    | x :: xs', y :: ys' =>
        if py_eq h x y then items xs' ys' else py_order h op x y
    | _, _ => Ok (int_order op (Z.of_nat (List.length xs)) (Z.of_nat (List.length ys)))
    end.

Definition has_name (k : string) (n : NodeDef.t) : bool :=
  String.eqb (NodeDef.name n) k.

(** The same edge without its condition. *)
Definition unconditional (edge : EdgeDef.t) : EdgeDef.t :=
  EdgeDef.mk (EdgeDef.from_node edge) (EdgeDef.to_node edge) None
             (EdgeDef.operator edge) (EdgeDef.value edge).

Definition with_edges (graph : GraphDef.t) (edges : list EdgeDef.t) : GraphDef.t :=
  GraphDef.mk (GraphDef.id graph) (GraphDef.nodes graph) edges
              (GraphDef.start_node graph).

(** Induction on literals that reaches the items of lists and dicts. *)
Section literal_induction.

Variable P : literal -> Prop.
Hypothesis P_none : P LNone.
Hypothesis P_bool : forall b, P (LBool b).
Hypothesis P_int : forall n, P (LInt n).
Hypothesis P_str : forall s, P (LStr s).
Hypothesis P_list : forall xs, Forall P xs -> P (LList xs).
Hypothesis P_dict : forall kvs, Forall (fun kv => P kv.2) kvs -> P (LDict kvs).

Fixpoint literal_nested_ind (b : literal) : P b :=
  match b with
  | LNone => P_none
  | LBool c => P_bool c
  | LInt n => P_int n
  | LStr s => P_str s
  | LList xs =>
      P_list xs
        ((fix items (xs : list literal) : Forall P xs :=
            match xs with
            | [] => List.Forall_nil P
            | x :: xs' => List.Forall_cons P x xs' (literal_nested_ind x) (items xs')
            end) xs)
  | LDict kvs =>
      P_dict kvs
        ((fix items (kvs : list (string * literal))
            : Forall (fun kv => P kv.2) kvs :=
            match kvs with
            | [] => List.Forall_nil _
            | kv :: kvs' =>
                List.Forall_cons (fun kv => P kv.2) kv kvs'
                  (literal_nested_ind kv.2) (items kvs')
            end) kvs)
  end.

End literal_induction.

(** ** Tools, graphs and requests of the examples *)

(** Two edges from [a] whose conditions both hold ([count < 3], then an
    unconditional one), after an edge from another node and an edge from
    [a] that does not match: the earlier of the two is taken. *)
Definition two_matches_edges : list EdgeDef.t :=
  [ EdgeDef.mk "x" "y" None OpEq LNone;
    EdgeDef.mk "a" "z" (Some "count") OpGt (LInt 5);
    EdgeDef.mk "a" "b" (Some "count") OpLt (LInt 3);
    EdgeDef.mk "a" "c" None OpEq LNone;
    EdgeDef.mk "a" "d" (Some "count") OpEq (LInt 0) ].

Definition two_matches_graph : GraphDef.t :=
  GraphDef.mk "g" ∅ two_matches_edges "a".

Definition count_heap (n : Z) : heap := [ODict {["count" := VInt n]}].

(** A tool that returns the state it is given, untouched. *)
Definition keep : ToolFunc := fun state h => (Ok state, h).

(** A rendering of exceptions for the examples, standing for [str]. *)
Definition message (e : exn) : string :=
  match e with
  | KeyError arg => "KeyError " +:+ arg
  | TypeError => "TypeError"
  | AttributeError => "AttributeError"
  | ValidationError => "ValidationError"
  | ToolException msg => msg
  end.

Definition new_run (state : pyval) : Run.t :=
  Run.mk "r" "g" PENDING None state [] None.

(** [a -> b] unconditionally, [b -> a] when [again == True]; on a state
    without [again] the run visits [a], then [b], and stops there. *)
Definition again_graph : GraphDef.t :=
  GraphDef.mk "g"
    (nodes_dict [NodeDef.mk "a" "keep"; NodeDef.mk "b" "keep"])
    [ EdgeDef.mk "a" "b" None OpEq LNone;
      EdgeDef.mk "b" "a" (Some "again") OpEq (LBool true) ]
    "a".

Definition keep_registry : gmap string ToolFunc :=
  ToolRegistry.register "keep" keep ∅.

(** A tool that raises. *)
Definition broken : ToolFunc := fun state h => (Raise (ToolException "boom"), h).

Definition broken_registry : gmap string ToolFunc :=
  ToolRegistry.register "broken" broken keep_registry.

(** [a -> b], where the tool of [b] raises. *)
Definition broken_graph : GraphDef.t :=
  GraphDef.mk "g"
    (nodes_dict [NodeDef.mk "a" "keep"; NodeDef.mk "b" "broken"])
    [ EdgeDef.mk "a" "b" None OpEq LNone ]
    "a".

(** One node [a] that loops while [x < 3]; on a state without [x] the
    comparison is [None < 3], a [TypeError], raised after the visit of
    [a] has been logged. *)
Definition order_graph : GraphDef.t :=
  GraphDef.mk "g"
    (nodes_dict [NodeDef.mk "a" "keep"])
    [ EdgeDef.mk "a" "a" (Some "x") OpLt (LInt 3) ]
    "a".

(** A tool that returns a new dict [{"a": 1}], whatever it is given. *)
Definition return_a1 : ToolFunc :=
  fun state h => (Ok (VRef (List.length h)), h ++ [ODict {["a" := VInt 1]}]).

Definition a1_registry : gmap string ToolFunc :=
  ToolRegistry.register "return_a1" return_a1 ∅.

Definition a1_graph : GraphDef.t :=
  GraphDef.mk "g" (nodes_dict [NodeDef.mk "only" "return_a1"]) [] "only".

(** The prior state [{"a": 0, "b": 2}]. *)
Definition a0_b2_heap : heap := [ODict (<["b" := VInt 2]> {["a" := VInt 0]})].

(** [return {"items": [1]}]: a new list and a new dict that holds it. *)
Definition make_items : ToolFunc :=
  fun state h =>
    (Ok (VRef (S (List.length h))),
     h ++ [OList [VInt 1]; ODict {["items" := VRef (List.length h)]}]).

(** [state["items"].append(2); return state]: the list is mutated in
    place. *)
Definition append_item : ToolFunc :=
  fun state h =>
    match state with
    | VRef l =>
        match h !! l with
        | Some (ODict d) =>
            match d !! "items" with
            | Some (VRef li) =>
                match h !! li with
                | Some (OList xs) => (Ok state, <[li := OList (xs ++ [VInt 2])]> h)
                | _ => (Raise AttributeError, h)
                end
            | Some _ => (Raise AttributeError, h)
            | None => (Raise (KeyError "items"), h)
            end
        | _ => (Raise TypeError, h)
        end
    | _ => (Raise TypeError, h)
    end.

Definition items_registry : gmap string ToolFunc :=
  ToolRegistry.register "append_item" append_item
    (ToolRegistry.register "make_items" make_items ∅).

(** [a -> b]: [a] builds the state, [b] appends to its list. *)
Definition items_graph : GraphDef.t :=
  GraphDef.mk "g"
    (nodes_dict [NodeDef.mk "a" "make_items"; NodeDef.mk "b" "append_item"])
    [ EdgeDef.mk "a" "b" None OpEq LNone ]
    "a".

(** [state["count"] += 1; return state]. *)
Definition increment_count : ToolFunc :=
  fun state h =>
    match state with
    | VRef l =>
        match h !! l with
        | Some (ODict d) =>
            match d !! "count" with
            | Some v =>
                match as_int v with
                | Some n => (Ok state, <[l := ODict (<["count" := VInt (n + 1)]> d)]> h)
                | None => (Raise TypeError, h)
                end
            | None => (Raise (KeyError "count"), h)
            end
        | _ => (Raise TypeError, h)
        end
    | _ => (Raise TypeError, h)
    end.

Definition count_registry : gmap string ToolFunc :=
  ToolRegistry.register "increment_count" increment_count ∅.

(** One node [start], and [start -> start] while [count < 3]. *)
Definition count_graph : GraphDef.t :=
  GraphDef.mk "g"
    (nodes_dict [NodeDef.mk "start" "increment_count"])
    [ EdgeDef.mk "start" "start" (Some "count") OpLt (LInt 3) ]
    "start".

(** Nodes [a] only, with an edge [a -> ghost]. *)
Definition ghost_request : GraphCreateRequest.t :=
  GraphCreateRequest.mk
    [NodeDef.mk "a" "keep"]
    [EdgeDef.mk "a" "ghost" None OpEq LNone]
    "a".

Definition ghost_graph : GraphDef.t :=
  GraphDef.mk "g1" (nodes_dict [NodeDef.mk "a" "keep"])
    [EdgeDef.mk "a" "ghost" None OpEq LNone] "a".

(** Two nodes named [a], bound to different tools. *)
Definition twice_a_request : GraphCreateRequest.t :=
  GraphCreateRequest.mk
    [NodeDef.mk "a" "first"; NodeDef.mk "b" "keep"; NodeDef.mk "a" "second"]
    []
    "a".

(** [a -> b] when [flag == None] (operator and value left to their
    defaults), then [a -> c]; the state has no [flag]. *)
Definition flag_edge : EdgeDef.t := EdgeDef.mk "a" "b" (Some "flag") OpEq LNone.

Definition flag_graph : GraphDef.t :=
  GraphDef.mk "g" (nodes_dict [NodeDef.mk "a" "keep"])
    [flag_edge; EdgeDef.mk "a" "c" None OpEq LNone] "a".

(** ** Walks, terminal statuses and relations between operators *)

(** A node has an edge to another. *)
Definition has_edge (graph : GraphDef.t) (n m : string) : Prop :=
  exists e, e ∈ GraphDef.edges graph
            /\ EdgeDef.from_node e = n /\ EdgeDef.to_node e = m.

(** A sequence of nodes in which each one has an edge to the next. *)
Inductive walk (graph : GraphDef.t) : list string -> Prop :=
| walk_nil : walk graph []
| walk_one n : walk graph [n]
| walk_cons n m rest :
    has_edge graph n m -> walk graph (m :: rest) -> walk graph (n :: m :: rest).

Definition terminal (s : RunStatus) : bool :=
  match s with
  | COMPLETED | FAILED => true
  | PENDING | RUNNING => false
  end.

(** The state of the run is a dict of the heap. *)
Definition state_is_dict (s : Run.t * heap) : Prop :=
  exists l d, Run.state s.1 = VRef l /\ s.2 !! l = Some (ODict d).




(** The equality of the items of two lists, as [py_eq] computes it. *)
Definition eq_items (h : heap) : list pyval -> list literal -> bool :=
  fix items (xs : list pyval) (ys : list literal) {struct ys} : bool :=
    match xs, ys with
    | [], [] => true
    | x :: xs', y :: ys' => py_eq h x y && items xs' ys'
    | _, _ => false
    end.

(** [a <= b] as [a < b or a == b], and [a >= b] likewise. *)
Definition or_equal (h : heap) (a : pyval) (b : literal) (r : result bool)
  : result bool :=
  match r with
  | Ok strict => Ok (strict || py_eq h a b)
  | Raise e => Raise e
  end.

(** A tool that works in place: given a dict, it writes to that dict
    and to no other object that exists, may allocate new objects, and
    returns the dict it was given when it returns. *)
Definition in_place (tool : ToolFunc) : Prop :=
  forall l h d res h',
    h !! l = Some (ODict d) ->
    tool (VRef l) h = (res, h') ->
    (List.length h <= List.length h')%nat
    /\ (forall l', l' <> l -> (l' < List.length h)%nat -> h' !! l' = h !! l')
    /\ (exists d', h' !! l = Some (ODict d'))
    /\ match res with Ok v => v = VRef l | Raise _ => True end.

(** ** The endpoints (main.py) *)

(** What an endpoint does with a request: it responds, it raises an
    [HTTPException], or an exception escapes it (the construction of a
    response model refusing a field). *)
Inductive reply (A : Type) : Type :=
| Respond (a : A)
| Abort (e : HTTPException)
| Crash (exc : exn).
Arguments Respond {A} a.
Arguments Abort {A} e.
Arguments Crash {A} exc.

(** [initial_state] is the dict of the request, by its items; the lists
    and dicts among its values are objects of the heap. *)
Module GraphRunRequest.
Record t : Type := mk {
  graph_id : string;
  initial_state : gmap string pyval
}.
End GraphRunRequest.

Module GraphRunResponse.
Record t : Type := mk {
  run_id : string;
  final_state : pyval;
  status : RunStatus;
  log : list RunLogEntry.t
}.
End GraphRunResponse.

Module GraphRunStartResponse.
Record t : Type := mk { run_id : string; status : RunStatus }.
End GraphRunStartResponse.

Module RunStateResponse.
Record t : Type := mk {
  run_id : string;
  graph_id : string;
  status : RunStatus;
  current_node : option string;
  state : pyval;
  log : list RunLogEntry.t;
  error : option string
}.
End RunStateResponse.

(** A field declared [Dict[str, Any]] takes a dict and nothing else. *)
Definition is_dict (h : heap) (v : pyval) : bool :=
  match v with
  | VRef l => match h !! l with Some (ODict _) => true | _ => false end
  | _ => false
  end.

(** The run both [run_graph] and [run_graph_async] create: PENDING, on a
    copy of the request's state, with an empty log. *)
Definition create_run (run_id : string) (graph : GraphDef.t)
    (req : GraphRunRequest.t) (h : heap) : Run.t * heap :=
  (Run.mk run_id (GraphDef.id graph) PENDING None (VRef (List.length h)) [] None,
   h ++ [ODict (GraphRunRequest.initial_state req)]).

Section Endpoints.

Variable str : exn -> string.
Variable tool_registry : gmap string ToolFunc.

(** main.py, [run_graph].  [run_id] is the [str(uuid.uuid4())] drawn by
    the call.  [RUNS] holds the run object itself, so what
    [execute_graph] does to the run shows in the store. *)
Definition run_graph (fuel : nat) (run_id : string) (req : GraphRunRequest.t)
    (GRAPHS : gmap string GraphDef.t) (RUNS : gmap string Run.t) (h : heap)
  : option (reply GraphRunResponse.t * gmap string Run.t * heap) :=
  match GRAPHS !! GraphRunRequest.graph_id req with
  | None => Some (Abort (mkHTTPException 404 "Graph not found"), RUNS, h)
  | Some graph =>
      let (run, h0) := create_run run_id graph req h in
      match execute_graph str tool_registry fuel graph run h0 with
      | None => None
      | Some (run, h1) =>
          let RUNS := <[run_id := run]> RUNS in
          if is_dict h1 (Run.state run) then
            (Some (Respond (GraphRunResponse.mk run_id (Run.state run)
                              (Run.status run) (Run.log run)),
                   RUNS, h1))
          else Some (Crash ValidationError, RUNS, h1)
      end
  end.

(** main.py, [run_graph_async]: the run is stored and its execution is
    handed to the background tasks, here the arguments of the
    [execute_graph] to come; the response is built before any of it
    runs. *)
Definition run_graph_async (run_id : string) (req : GraphRunRequest.t)
    (GRAPHS : gmap string GraphDef.t) (RUNS : gmap string Run.t) (h : heap)
  : reply (GraphRunStartResponse.t * (GraphDef.t * Run.t))
    * gmap string Run.t * heap :=
  match GRAPHS !! GraphRunRequest.graph_id req with
  | None => (Abort (mkHTTPException 404 "Graph not found"), RUNS, h)
  | Some graph =>
      let (run, h0) := create_run run_id graph req h in
      (Respond (GraphRunStartResponse.mk run_id (Run.status run), (graph, run)),
       <[run_id := run]> RUNS, h0)
  end.

(** The background task, when it runs: [execute_graph(graph, run)] on
    the run object that [RUNS] holds under the run's id. *)
Definition background_task (fuel : nat) (task : GraphDef.t * Run.t)
    (RUNS : gmap string Run.t) (h : heap)
  : option (gmap string Run.t * heap) :=
  match execute_graph str tool_registry fuel task.1 task.2 h with
  | None => None
  | Some (run, h1) => Some (<[Run.id task.2 := run]> RUNS, h1)
  end.

End Endpoints.

(** main.py, [get_run_state]. *)
Definition get_run_state (run_id : string) (RUNS : gmap string Run.t) (h : heap)
  : reply RunStateResponse.t :=
  match RUNS !! run_id with
  | None => Abort (mkHTTPException 404 "Run not found")
  | Some run =>
      if is_dict h (Run.state run) then
        Respond (RunStateResponse.mk (Run.id run) (Run.graph_id run)
                   (Run.status run) (Run.current_node run) (Run.state run)
                   (Run.log run) (Run.error run))
      else Crash ValidationError
  end.

(** *** The store of graphs *)

(** A graph whose start node is one of its nodes, each node being
    indexed by its own name. *)
Definition graph_ok (graph : GraphDef.t) : Prop :=
  is_Some (GraphDef.nodes graph !! GraphDef.start_node graph)
  /\ forall k n, GraphDef.nodes graph !! k = Some n -> NodeDef.name n = k.

(** *** The log stream ([websocket_run_logs]) *)







(** ** The code review workflow (workflows_code_review.py) *)

(** [pattern in code], for two strings. *)
Definition contains (pattern code : string) : bool :=
  match String.index 0 pattern code with
  | Some _ => true
  | None => false
  end.

(** The dict a tool is given, when it is one: [state.get] and
    [state[...] = ...] raise [AttributeError] and [TypeError] on
    anything else. *)
Definition dict_of (h : heap) (state : pyval) : option (loc * gmap string pyval) :=
  match state with
  | VRef l =>
      match h !! l with
      | Some (ODict d) => Some (l, d)
      | _ => None
      end
  | _ => None
  end.

(** [min(10, max(1, line_count // 10))]. *)
Definition complexity_of (line_count : Z) : Z :=
  Z.min 10 (Z.max 1 (line_count / 10)).

(** [quality_score]: 10, minus [max(0, complexity - 5)], minus
    [issue_count], clamped to 0..10. *)
Definition quality_of (complexity issue_count : Z) : Z :=
  Z.max 0 (Z.min 10 (10 - Z.max 0 (complexity - 5) - issue_count)).

(** The issues [detect_basic_issues] finds, in the order it appends
    them. *)
Definition issues_of (code : string) : list string :=
  (if contains "print(" code then ["Debug prints present"] else [])
  ++ (if contains "TODO" code then ["TODO comment found"] else [])
  ++ (if contains "  " code then ["Potential inconsistent indentation"] else []).

Section CodeReview.

(** Library functions the tools call, which the model takes as they
    are: [str(code)] on a value that is not a string, [re.findall] with
    the pattern of [extract_functions], [str.splitlines], [str.strip],
    and [xs >= ys] on two lists of the heap. *)
Variable py_str : heap -> pyval -> string.
Variable findall : string -> list string.
Variable splitlines : string -> list string.
Variable strip : string -> string.
Variable list_gte : heap -> list pyval -> list pyval -> result bool.

Definition _get_code (h : heap) (state : gmap string pyval) : string :=
  match state !! "code" with
  | None => ""
  | Some (VStr code) => code
  | Some code => py_str h code
  end.

(** [[l for l in code.splitlines() if l.strip()]]. *)
Definition nonblank_lines (code : string) : list string :=
  List.filter (fun l => negb (String.eqb (strip l) "")) (splitlines code).

(** The quality score one pass of the workflow gives to a code. *)
Definition review_quality (code : string) : Z :=
  quality_of
    (complexity_of (Z.of_nat (List.length (nonblank_lines code))))
    (Z.of_nat (List.length (issues_of code))).

Definition extract_functions : ToolFunc :=
  fun state h =>
    match dict_of h state with
    | None => (Raise AttributeError, h)
    | Some (l, d) =>
        let code := _get_code h d in
        let names := findall code in
        let functions := List.length h in
        let h := h ++ [OList (map VStr names)] in
        let d := <["functions" := VRef functions]> d in
        let d := <["function_count" := VInt (Z.of_nat (List.length names))]> d in
        (Ok state, <[l := ODict d]> h)
    end.

Definition check_complexity : ToolFunc :=
  fun state h =>
    match dict_of h state with
    | None => (Raise AttributeError, h)
    | Some (l, d) =>
        let code := _get_code h d in
        let lines := nonblank_lines code in
        let line_count := Z.of_nat (List.length lines) in
        let complexity_score := complexity_of line_count in
        let d := <["line_count" := VInt line_count]> d in
        let d := <["complexity_score" := VInt complexity_score]> d in
        (Ok state, <[l := ODict d]> h)
    end.

Definition detect_basic_issues : ToolFunc :=
  fun state h =>
    match dict_of h state with
    | None => (Raise AttributeError, h)
    | Some (l, d) =>
        let code := _get_code h d in
        let issues := issues_of code in
        let issues_list := List.length h in
        let h := h ++ [OList (map VStr issues)] in
        let d := <["issues" := VRef issues_list]> d in
        let d := <["issue_count" := VInt (Z.of_nat (List.length issues))]> d in
        (Ok state, <[l := ODict d]> h)
    end.

(** [complexity > 7], [issue_count > 0], [complexity - 5] and
    [quality_score -= issue_count] need numbers and raise [TypeError] on
    anything else, before anything is written to the state;
    [fn_count == 0] never raises. *)
Definition suggest_improvements : ToolFunc :=
  fun state h =>
    match dict_of h state with
    | None => (Raise AttributeError, h)
    | Some (l, d) =>
        let complexity := default (VInt 5) (d !! "complexity_score") in
        let issue_count := default (VInt 0) (d !! "issue_count") in
        let fn_count := default (VInt 0) (d !! "function_count") in
        match as_int complexity, as_int issue_count with
        | Some complexity, Some issue_count =>
            let suggestions :=
              (if 7 <? complexity
               then ["Consider splitting large functions into smaller ones."]
               else [])
              ++ (if 0 <? issue_count
                  then ["Fix detected issues before merging."] else [])
              ++ (match as_int fn_count with
                  | Some 0 =>
                      ["No functions detected. Consider structuring code into functions."]
                  | _ => []
                  end) in
            let quality_score := quality_of complexity issue_count in
            let suggestions_list := List.length h in
            let h := h ++ [OList (map VStr suggestions)] in
            let d := <["suggestions" := VRef suggestions_list]> d in
            let d := <["quality_score" := VInt quality_score]> d in
            let threshold := default (VInt 7) (d !! "quality_threshold") in
            let d := <["quality_threshold" := threshold]> d in
            (Ok state, <[l := ODict d]> h)
        | _, _ => (Raise TypeError, h)
        end
    end.

(** [a >= b] on two values of the state: numbers with numbers, strings
    with strings, lists with lists; anything else is a [TypeError]. *)
Definition value_gte (h : heap) (a b : pyval) : result bool :=
  match as_int a, as_int b with
  | Some x, Some y => Ok (y <=? x)
  | _, _ =>
      match a, b with
      | VStr s, VStr t => Ok (String.leb t s)
      | VRef l, VRef l' =>
          match h !! l, h !! l' with
          | Some (OList xs), Some (OList ys) => list_gte h xs ys
          | _, _ => Raise TypeError
          end
      | _, _ => Raise TypeError
      end
  end.

Definition evaluate_quality : ToolFunc :=
  fun state h =>
    match dict_of h state with
    | None => (Raise AttributeError, h)
    | Some (l, d) =>
        let quality_score := default (VInt 0) (d !! "quality_score") in
        let threshold := default (VInt 7) (d !! "quality_threshold") in
        match value_gte h quality_score threshold with
        | Ok quality_ok =>
            let d := <["quality_ok" := VBool quality_ok]> d in
            (Ok state, <[l := ODict d]> h)
        | Raise exc => (Raise exc, h)
        end
    end.

(** [register_code_review_tools], on the registry as it finds it. *)
Definition register_code_review_tools (_tools : gmap string ToolFunc)
  : gmap string ToolFunc :=
  ToolRegistry.register "evaluate_quality" evaluate_quality
    (ToolRegistry.register "suggest_improvements" suggest_improvements
       (ToolRegistry.register "detect_basic_issues" detect_basic_issues
          (ToolRegistry.register "check_complexity" check_complexity
             (ToolRegistry.register "extract_functions" extract_functions
                _tools)))).

End CodeReview.

(** *** The sample graph and its runs *)

(** main.py, [create_sample_code_review_graph]. *)
Definition sample_nodes : list NodeDef.t :=
  [ NodeDef.mk "extract_functions" "extract_functions";
    NodeDef.mk "check_complexity" "check_complexity";
    NodeDef.mk "detect_basic_issues" "detect_basic_issues";
    NodeDef.mk "suggest_improvements" "suggest_improvements";
    NodeDef.mk "evaluate_quality" "evaluate_quality" ].

Definition sample_edges : list EdgeDef.t :=
  [ EdgeDef.mk "extract_functions" "check_complexity" None OpEq LNone;
    EdgeDef.mk "check_complexity" "detect_basic_issues" None OpEq LNone;
    EdgeDef.mk "detect_basic_issues" "suggest_improvements" None OpEq LNone;
    EdgeDef.mk "suggest_improvements" "evaluate_quality" None OpEq LNone;
    EdgeDef.mk "evaluate_quality" "extract_functions"
               (Some "quality_ok") OpEq (LBool false) ].

Definition sample_graph (graph_id : string) : GraphDef.t :=
  GraphDef.mk graph_id (nodes_dict sample_nodes) sample_edges "extract_functions".

Definition create_sample_code_review_graph (graph_id : string)
    (GRAPHS : gmap string GraphDef.t) : string * gmap string GraphDef.t :=
  (graph_id, <[graph_id := sample_graph graph_id]> GRAPHS).

(** The keys of the state each tool assigns. *)
Definition keys_written (name : string) : list string :=
  if decide (name = "extract_functions") then ["functions"; "function_count"]
  else if decide (name = "check_complexity") then ["line_count"; "complexity_score"]
  else if decide (name = "detect_basic_issues") then ["issues"; "issue_count"]
  else if decide (name = "suggest_improvements")
       then ["suggestions"; "quality_score"; "quality_threshold"]
  else if decide (name = "evaluate_quality") then ["quality_ok"]
  else [].

(** The code the tools read, when the state has a string or nothing
    under [code]. *)
Definition code_text (d : gmap string pyval) : string :=
  match d !! "code" with
  | Some (VStr code) => code
  | _ => ""
  end.

Definition code_is_text (d : gmap string pyval) : Prop :=
  match d !! "code" with
  | None | Some (VStr _) => True
  | Some _ => False
  end.

(** The threshold [evaluate_quality] compares with, when it is a number. *)
Definition threshold_of (d : gmap string pyval) : option Z :=
  as_int (default (VInt 7) (d !! "quality_threshold")).

(** The nodes of one pass of the sample workflow. *)
Definition sample_pass : list string := map NodeDef.name sample_nodes.

(** ** Further tools, graphs and runs of the examples *)

(** One node [a] with the edge [a -> a]. *)
Definition self_loop_graph : GraphDef.t :=
  GraphDef.mk "g" (nodes_dict [NodeDef.mk "a" "keep"])
    [EdgeDef.mk "a" "a" None OpEq LNone] "a".

(** [a -> b], where [b] names a tool nobody registered. *)
Definition missing_tool_graph : GraphDef.t :=
  GraphDef.mk "g"
    (nodes_dict [NodeDef.mk "a" "keep"; NodeDef.mk "b" "nowhere"])
    [ EdgeDef.mk "a" "b" None OpEq LNone ]
    "a".

(** [state["seen"] = True; raise ...]: the tool writes to the state it
    was given, then raises. *)
Definition mark_then_raise : ToolFunc :=
  fun state h =>
    match state with
    | VRef l =>
        match h !! l with
        | Some (ODict d) =>
            (Raise (ToolException "boom"),
             <[l := ODict (<["seen" := VBool true]> d)]> h)
        | _ => (Raise TypeError, h)
        end
    | _ => (Raise TypeError, h)
    end.

Definition mark_registry : gmap string ToolFunc :=
  ToolRegistry.register "mark_then_raise" mark_then_raise ∅.

Definition mark_graph : GraphDef.t :=
  GraphDef.mk "g" (nodes_dict [NodeDef.mk "a" "mark_then_raise"]) [] "a".



(** A tool that returns None instead of a state. *)
Definition return_none : ToolFunc := fun _ h => (Ok VNone, h).

Definition none_registry : gmap string ToolFunc :=
  ToolRegistry.register "return_none" return_none ∅.

Definition none_graph : GraphDef.t :=
  GraphDef.mk "g" (nodes_dict [NodeDef.mk "a" "return_none"]) [] "a".

(** Stand-ins for the library functions, for the examples: every value
    prints as the empty string, no function is found, the code is one
    line, nothing is stripped, and lists have no order. *)
Definition example_str : heap -> pyval -> string := fun _ _ => "".
Definition example_findall : string -> list string := fun _ => [].
Definition example_splitlines : string -> list string := fun code => [code].
Definition example_strip : string -> string := fun l => l.
Definition example_list_gte : heap -> list pyval -> list pyval -> result bool :=
  fun _ _ _ => Raise TypeError.

Definition example_registry : gmap string ToolFunc :=
  register_code_review_tools example_str example_findall example_splitlines
    example_strip example_list_gte ∅.

(** A state with some code and a key the tools know nothing about. *)
Definition review_heap : heap :=
  [ODict (<["author" := VStr "me"]> {["code" := VStr "print(1)  # TODO"]})].



(** ** Basic facts *)

Lemma heap_lookup_new (h : heap) (o : pyobj) :
  (h ++ [o]) !! List.length h = Some o.
Proof.
  rewrite lookup_app_r by lia. by rewrite Nat.sub_diag.
Qed.

(** The turn of the loop, step by step. *)
Lemma visit_eq reg graph n r h :
  visit reg graph n (r, h) =
    let r0 := Run.set_current_node (Some n) r in
    match GraphDef.nodes graph !! n with
    | None => (Raise (KeyError n), (r0, h))
    | Some node =>
        match ToolRegistry.get reg (NodeDef.tool node) with
        | Raise e => (Raise e, (r0, h))
        | Ok tool =>
            match tool (Run.state r) h with
            | (Raise e, h1) => (Raise e, (r0, h1))
            | (Ok new_state, h1) =>
                let r1 := Run.set_state new_state r0 in
                match new_state with
                | VRef l =>
                    match h1 !! l with
                    | Some (ODict d) =>
                        let h2 := h1 ++ [ODict d] in
                        let entry := RunLogEntry.mk n (List.length h1) in
                        (_next_node_name h2 graph n new_state,
                         (Run.log_append entry r1, h2))
                    | Some (OList xs) =>
                        (Raise ValidationError, (r1, h1 ++ [OList xs]))
                    | None => (Raise AttributeError, (r1, h1))
                    end
                | _ => (Raise AttributeError, (r1, h1))
                end
            end
        end
    end.
Proof.
  unfold visit, mbind, M_bind, mret, M_ret, lift, update_run, get_run,
    get_heap, await, nodes_getitem; simpl.
  destruct (GraphDef.nodes graph !! n) as [node|]; [|done].
  destruct (ToolRegistry.get reg (NodeDef.tool node)) as [tool|e]; [|done].
  destruct (tool (Run.state r) h) as [[new_state|e] h1]; [|done].
  unfold copy, RunLogEntry_new, mbind, M_bind, mret, M_ret, lift, get_heap,
    alloc; simpl.
  destruct new_state as [| | | |l]; try done.
  destruct (h1 !! l) as [o|] eqn:Hl; [|done].
  simpl. rewrite heap_lookup_new.
  by destruct o.
Qed.

Lemma while_loop_None reg fuel graph s :
  while_loop reg fuel graph None s = Some (Ok tt, s).
Proof. by destruct fuel. Qed.

(** More fuel does not change a result. *)
Lemma while_loop_fuel reg graph fuel extra :
  forall node_name s res,
    while_loop reg fuel graph node_name s = Some res ->
    while_loop reg (fuel + extra) graph node_name s = Some res.
Proof.
  induction fuel as [|fuel IH]; intros [n|] s res; simpl; try done.
  - intros H. by rewrite while_loop_None.
  - destruct (visit reg graph n s) as [[next|e] s']; [apply IH | done].
Qed.

(** The turns of a visit sequence are the first turns of the loop. *)
Lemma while_loop_visits reg graph c ns c' :
  visits reg graph c ns c' ->
  forall fuel,
    while_loop reg (List.length ns + fuel) graph c.1 c.2
    = while_loop reg fuel graph c'.1 c'.2.
Proof.
  induction 1 as [c|n s next s' ns c Hv _ IH]; intros fuel; simpl; [done|].
  rewrite Hv. apply IH.
Qed.

(** ** Edge selection: the first match wins *)

Lemma from_nodeb_true node_name e :
  from_nodeb node_name e = true <-> EdgeDef.from_node e = node_name.
Proof. apply String.eqb_eq. Qed.

Lemma edge_matches_unconditional h state edge :
  EdgeDef.condition_key edge = None -> edge_matches h state edge = Ok true.
Proof. unfold edge_matches. by intros ->. Qed.

(** Candidates that do not match are passed over. *)
Lemma first_match_skip h state pre rest :
  Forall (fun e => edge_matches h state e = Ok false) pre ->
  first_match h state (pre ++ rest) = first_match h state rest.
Proof.
  induction 1 as [|e pre He _ IH]; simpl; [done|]. by rewrite He.
Qed.

Lemma candidates_no_match h state node_name es :
  Forall (fun e => EdgeDef.from_node e = node_name ->
                   edge_matches h state e = Ok false) es ->
  Forall (fun e => edge_matches h state e = Ok false)
         (List.filter (from_nodeb node_name) es).
Proof.
  induction 1 as [|e es He _ IH]; simpl; [constructor|].
  destruct (from_nodeb node_name e) eqn:Hfrom; [|done].
  constructor; [|done]. by apply He, from_nodeb_true.
Qed.

(** With no matching candidate the selection is [None]. *)
Lemma next_node_no_match h graph node_name state :
  Forall (fun e => EdgeDef.from_node e = node_name ->
                   edge_matches h state e = Ok false) (GraphDef.edges graph) ->
  _next_node_name h graph node_name state = Ok None.
Proof.
  intros Hno. unfold _next_node_name.
  rewrite <- (app_nil_r (List.filter _ _)).
  rewrite first_match_skip; [done|]. by apply candidates_no_match.
Qed.

(** A candidate reached by the scan that raises makes the selection raise. *)
Lemma next_node_raises h graph node_name state pre edge post exc :
  GraphDef.edges graph = pre ++ edge :: post ->
  EdgeDef.from_node edge = node_name ->
  Forall (fun e => EdgeDef.from_node e = node_name ->
                   edge_matches h state e = Ok false) pre ->
  edge_matches h state edge = Raise exc ->
  _next_node_name h graph node_name state = Raise exc.
Proof.
  intros Hedges Hfrom Hpre Hedge. unfold _next_node_name.
  rewrite Hedges, List.filter_app. simpl.
  apply from_nodeb_true in Hfrom. rewrite Hfrom.
  rewrite first_match_skip by by apply candidates_no_match.
  simpl. by rewrite Hedge.
Qed.

(** C1. Edge selection is first-match-wins in declaration order: when
    the edges of the graph are [pre ++ edge :: post], [edge] leaves
    [node_name] and matches (its [condition_key] is null, or its
    condition holds in the state), and no edge of [pre] that leaves
    [node_name] matches, [_next_node_name] returns [edge]'s [to_node],
    whatever the later edges [post] are and whether they match or not. *)
Theorem first_match_wins h graph node_name state pre edge post :
  GraphDef.edges graph = pre ++ edge :: post ->
  EdgeDef.from_node edge = node_name ->
  Forall (fun e => EdgeDef.from_node e = node_name ->
                   edge_matches h state e = Ok false) pre ->
  (EdgeDef.condition_key edge = None \/ edge_matches h state edge = Ok true) ->
  _next_node_name h graph node_name state = Ok (Some (EdgeDef.to_node edge)).
Proof.
  intros Hedges Hfrom Hpre Hedge.
  assert (edge_matches h state edge = Ok true) as Hmatch.
  { destruct Hedge as [Hnull|Hcond]; [|done].
    by apply edge_matches_unconditional. }
  unfold _next_node_name. rewrite Hedges, List.filter_app. simpl.
  apply from_nodeb_true in Hfrom. rewrite Hfrom.
  rewrite first_match_skip by by apply candidates_no_match.
  simpl. by rewrite Hmatch.
Qed.

Lemma first_match_wins_witness :
  _next_node_name (count_heap 0) two_matches_graph "a" (VRef 0%nat)
  = Ok (Some "b").
Proof.
  apply (first_match_wins (count_heap 0) two_matches_graph "a" (VRef 0%nat)
           [ EdgeDef.mk "x" "y" None OpEq LNone;
             EdgeDef.mk "a" "z" (Some "count") OpGt (LInt 5) ]
           (EdgeDef.mk "a" "b" (Some "count") OpLt (LInt 3))
           [ EdgeDef.mk "a" "c" None OpEq LNone;
             EdgeDef.mk "a" "d" (Some "count") OpEq (LInt 0) ]).
  - reflexivity.
  - reflexivity.
  - constructor; [intros H; discriminate H|].
    constructor; [intros _; reflexivity|]. constructor.
  - right. reflexivity.
Defined.

(** ** The run loop: completion *)

Lemma execute_graph_settle str reg fuel graph run h :
  execute_graph str reg fuel graph run h
  = settle str (while_loop reg fuel graph (start graph run h).1 (start graph run h).2).
Proof. reflexivity. Qed.

(** A run that has come to [c] goes on from [c]. *)
Lemma execute_graph_from str reg graph run h ns c fuel :
  visits reg graph (start graph run h) ns c ->
  execute_graph str reg (List.length ns + fuel) graph run h
  = settle str (while_loop reg fuel graph c.1 c.2).
Proof.
  intros Hvisits. rewrite execute_graph_settle.
  by rewrite (while_loop_visits _ _ _ _ _ Hvisits).
Qed.

(** Each visit that does not raise appends one entry, for its node. *)
Lemma visit_ok_log reg graph n r h next r' h' :
  visit reg graph n (r, h) = (Ok next, (r', h')) ->
  exists snapshot, Run.log r' = Run.log r ++ [RunLogEntry.mk n snapshot].
Proof.
  rewrite visit_eq. simpl.
  destruct (GraphDef.nodes graph !! n) as [node|]; [|done].
  destruct (ToolRegistry.get reg (NodeDef.tool node)) as [tool|e]; [|done].
  destruct (tool (Run.state r) h) as [[new_state|e] h1]; [|done].
  destruct new_state as [| | | |l]; try done.
  destruct (h1 !! l) as [[xs|d]|]; try done.
  intros [= _ <- _]. by eexists.
Qed.

Lemma visits_log reg graph c ns c' :
  visits reg graph c ns c' ->
  map RunLogEntry.node (Run.log c'.2.1)
  = map RunLogEntry.node (Run.log c.2.1) ++ ns.
Proof.
  induction 1 as [c|n [r h] next [r' h'] ns c Hv _ IH]; simpl in *.
  - by rewrite app_nil_r.
  - destruct (visit_ok_log _ _ _ _ _ _ _ _ Hv) as [snapshot Hlog].
    rewrite IH, Hlog, map_app. simpl. by rewrite <- app_assoc.
Qed.

(** A visit whose node is found, whose tool is registered and returns a
    dict: the state is replaced, the visit is logged and the edges are
    evaluated. *)
Lemma visit_logged reg graph n r h node tool l h1 d :
  GraphDef.nodes graph !! n = Some node ->
  reg !! NodeDef.tool node = Some tool ->
  tool (Run.state r) h = (Ok (VRef l), h1) ->
  h1 !! l = Some (ODict d) ->
  visit reg graph n (r, h)
  = (_next_node_name (h1 ++ [ODict d]) graph n (VRef l),
     (Run.log_append (RunLogEntry.mk n (List.length h1))
        (Run.set_state (VRef l) (Run.set_current_node (Some n) r)),
      h1 ++ [ODict d])).
Proof.
  intros Hnode Hreg Htool Hdict. rewrite visit_eq. simpl.
  rewrite Hnode. simpl. unfold ToolRegistry.get. rewrite Hreg. simpl.
  rewrite Htool. simpl. by rewrite Hdict.
Qed.

(** C2. Termination on no match: a run that has come to node [n] (after
    the visits [ns], none of which failed), where the node is found, its
    tool is registered and returns a dict, and no edge leaving [n]
    matches the state once the tool has run and the visit is logged (in
    particular when no edge leaves [n]), ends COMPLETED with
    [current_node = None], for every fuel that allows one more turn than
    the visits made so far. *)
Theorem no_match_completes str reg graph run h ns n r hn node tool l h1 d :
  visits reg graph (start graph run h) ns (Some n, (r, hn)) ->
  GraphDef.nodes graph !! n = Some node ->
  reg !! NodeDef.tool node = Some tool ->
  tool (Run.state r) hn = (Ok (VRef l), h1) ->
  h1 !! l = Some (ODict d) ->
  Forall (fun e => EdgeDef.from_node e = n ->
                   edge_matches (h1 ++ [ODict d]) (VRef l) e = Ok false)
         (GraphDef.edges graph) ->
  forall fuel, (List.length ns < fuel)%nat ->
    exists run',
      execute_graph str reg fuel graph run h = Some (run', h1 ++ [ODict d])
      /\ Run.status run' = COMPLETED
      /\ Run.current_node run' = None
      /\ Run.error run' = Run.error r
      /\ Run.state run' = VRef l
      /\ Run.log run' = Run.log r ++ [RunLogEntry.mk n (List.length h1)].
Proof.
  intros Hvisits Hnode Hreg Htool Hdict Hedges fuel Hfuel.
  replace fuel with (List.length ns + S (fuel - S (List.length ns)))%nat by lia.
  rewrite (execute_graph_from _ _ _ _ _ _ _ _ Hvisits). simpl.
  rewrite (visit_logged _ _ _ _ _ _ _ _ _ _ Hnode Hreg Htool Hdict).
  rewrite (next_node_no_match _ _ _ _ Hedges).
  rewrite while_loop_None. simpl.
  eexists. split; [reflexivity|]. by simpl.
Qed.

Lemma no_match_completes_witness :
  exists run',
    execute_graph message keep_registry 2 again_graph
      (new_run (VRef 0%nat)) [ODict ∅]
    = Some (run', [ODict ∅; ODict ∅; ODict ∅])
    /\ Run.status run' = COMPLETED
    /\ Run.current_node run' = None
    /\ Run.error run' = None
    /\ Run.state run' = VRef 0%nat
    /\ Run.log run' = [RunLogEntry.mk "a" 1%nat; RunLogEntry.mk "b" 2%nat].
Proof.
  apply (no_match_completes message keep_registry again_graph
           (new_run (VRef 0%nat)) [ODict ∅] ["a"] "b"
           (Run.mk "r" "g" RUNNING (Some "a") (VRef 0%nat)
              [RunLogEntry.mk "a" 1%nat] None)
           [ODict ∅; ODict ∅]
           (NodeDef.mk "b" "keep") keep 0%nat [ODict ∅; ODict ∅] ∅).
  - eapply visits_cons; [reflexivity | apply visits_nil].
  - reflexivity.
  - reflexivity.
  - reflexivity.
  - reflexivity.
  - constructor; [intros H; discriminate H|].
    constructor; [intros _; reflexivity|]. constructor.
  - simpl. lia.
Defined.

(** ** The run loop: failure *)

Lemma logging_eq n new_state r h1 :
  logging n new_state (r, h1) =
    match new_state with
    | VRef l =>
        match h1 !! l with
        | Some (ODict d) =>
            (Ok (RunLogEntry.mk n (List.length h1)), (r, h1 ++ [ODict d]))
        | Some (OList xs) => (Raise ValidationError, (r, h1 ++ [OList xs]))
        | None => (Raise AttributeError, (r, h1))
        end
    | _ => (Raise AttributeError, (r, h1))
    end.
Proof.
  unfold logging, copy, RunLogEntry_new, mbind, M_bind, mret, M_ret, lift,
    get_heap, alloc; simpl.
  destruct new_state as [| | | |l]; try done.
  destruct (h1 !! l) as [o|] eqn:Hl; [|done].
  simpl. rewrite heap_lookup_new. by destruct o.
Qed.

(** A visit that raises at [step]: what it raises and what it leaves. *)
Lemma visit_raises reg graph n r h step exc :
  raises_at reg graph n r h step exc ->
  exists r' h' entries,
    visit reg graph n (r, h) = (Raise exc, (r', h'))
    /\ Run.current_node r' = Some n
    /\ Run.status r' = Run.status r
    /\ Run.log r' = Run.log r ++ entries
    /\ map RunLogEntry.node entries = logged_by_failing_visit n step.
Proof.
  intros Hraises. rewrite visit_eq. simpl.
  destruct Hraises as [Hnode|node e Hnode Hreg|node tool e h1 Hnode Hreg Htool
    |node tool v h1 e s' Hnode Hreg Htool Hlog
    |node tool v h1 entry r' h2 e Hnode Hreg Htool Hlog Hnext];
    rewrite Hnode; simpl.
  - eexists _, _, []. by rewrite app_nil_r.
  - rewrite Hreg. eexists _, _, []. by rewrite app_nil_r.
  - rewrite Hreg, Htool. eexists _, _, []. by rewrite app_nil_r.
  - rewrite Hreg, Htool. rewrite logging_eq in Hlog.
    destruct v as [| | | |l]; try (injection Hlog as <- _;
      eexists _, _, []; by rewrite app_nil_r).
    destruct (h1 !! l) as [[xs|d]|]; try done;
      injection Hlog as <- _; eexists _, _, []; by rewrite app_nil_r.
  - rewrite Hreg, Htool. rewrite logging_eq in Hlog.
    destruct v as [| | | |l]; try done.
    destruct (h1 !! l) as [[xs|d]|]; try done.
    injection Hlog as <- <- <-. rewrite Hnext.
    by eexists _, _, [_].
Qed.

(** Every visit that raises does so at one of the five steps. *)
Lemma raises_at_complete reg graph n r h exc s' :
  visit reg graph n (r, h) = (Raise exc, s') ->
  exists step, raises_at reg graph n r h step exc.
Proof.
  rewrite visit_eq. simpl.
  destruct (GraphDef.nodes graph !! n) as [node|] eqn:Hnode.
  2:{ intros [= <- _]. exists NodeLookup. by constructor. }
  destruct (ToolRegistry.get reg (NodeDef.tool node)) as [tool|e] eqn:Hreg.
  2:{ intros [= <- _]. exists ToolResolution. by econstructor. }
  destruct (tool (Run.state r) h) as [[v|e] h1] eqn:Htool.
  2:{ intros [= <- _]. exists ToolInvocation. by econstructor. }
  pose proof (logging_eq n v r h1) as Hlog.
  destruct v as [| | | |l];
    try (intros [= <- _]; exists Logging; by econstructor).
  destruct (h1 !! l) as [[xs|d]|] eqn:Hl;
    try (intros [= <- _]; exists Logging; by econstructor).
  intros Hnext. exists EdgeEvaluation.
  destruct (_next_node_name (h1 ++ [ODict d]) graph n (VRef l)) as [next|e]
    eqn:Hsel; [done|].
  injection Hnext as <- _. by econstructor.
Qed.

(** A run that has come to [n], whose visit raises: the loop stops
    there and the [except] clause settles the run. *)
Lemma execute_graph_stops str reg graph run h ns n s exc r' h' fuel :
  visits reg graph (start graph run h) ns (Some n, s) ->
  visit reg graph n s = (Raise exc, (r', h')) ->
  (List.length ns < fuel)%nat ->
  execute_graph str reg fuel graph run h
  = Some (Run.set_error (Some (str exc)) (Run.set_status FAILED r'), h').
Proof.
  intros Hvisits Hvisit Hfuel.
  replace fuel with (List.length ns + S (fuel - S (List.length ns)))%nat by lia.
  rewrite (execute_graph_from _ _ _ _ _ _ _ _ Hvisits). simpl.
  by rewrite Hvisit.
Qed.

(** C3 as amended. Failure handling: when the visit of [n] raises [exc]
    at any of its steps (node lookup, tool resolution, tool invocation,
    logging, edge evaluation), [execute_graph] stops there with
    [status = FAILED], [error] the message of [exc] and [current_node]
    still [n]; the log holds the entries of the nodes visited before
    [n], in order, followed by the entry of [n] itself when it is edge
    evaluation that raised, the visit having been logged by then. *)
Theorem failure_stops_run str reg graph run h ns n r hn step exc :
  visits reg graph (start graph run h) ns (Some n, (r, hn)) ->
  raises_at reg graph n r hn step exc ->
  forall fuel, (List.length ns < fuel)%nat ->
    exists run' h',
      execute_graph str reg fuel graph run h = Some (run', h')
      /\ Run.status run' = FAILED
      /\ Run.error run' = Some (str exc)
      /\ Run.current_node run' = Some n
      /\ map RunLogEntry.node (Run.log run')
         = map RunLogEntry.node (Run.log run) ++ ns
           ++ logged_by_failing_visit n step.
Proof.
  intros Hvisits Hraises fuel Hfuel.
  destruct (visit_raises _ _ _ _ _ _ _ Hraises)
    as (r' & h' & entries & Hvisit & Hcur & _ & Hlog & Hentries).
  exists (Run.set_error (Some (str exc)) (Run.set_status FAILED r')), h'.
  split; [by eapply execute_graph_stops|]. simpl.
  repeat split; [done|].
  rewrite Hlog, map_app, Hentries.
  apply visits_log in Hvisits. simpl in Hvisits.
  by rewrite Hvisits, app_assoc.
Qed.

Lemma failure_stops_run_witness :
  exists run' h',
    execute_graph message broken_registry 2 broken_graph
      (new_run (VRef 0%nat)) [ODict ∅]
    = Some (run', h')
    /\ Run.status run' = FAILED
    /\ Run.error run' = Some "boom"
    /\ Run.current_node run' = Some "b"
    /\ map RunLogEntry.node (Run.log run') = ["a"].
Proof.
  apply (failure_stops_run message broken_registry broken_graph
           (new_run (VRef 0%nat)) [ODict ∅] ["a"] "b"
           (Run.mk "r" "g" RUNNING (Some "a") (VRef 0%nat)
              [RunLogEntry.mk "a" 1%nat] None)
           [ODict ∅; ODict ∅] ToolInvocation (ToolException "boom")).
  - eapply visits_cons; [reflexivity | apply visits_nil].
  - eapply (raises_tool_invocation _ _ _ _ _ (NodeDef.mk "b" "broken") broken);
      reflexivity.
  - simpl. lia.
Defined.

Lemma order_graph_run :
  execute_graph message keep_registry 1 order_graph
    (new_run (VRef 0%nat)) [ODict ∅]
  = Some (Run.mk "r" "g" FAILED (Some "a") (VRef 0%nat)
            [RunLogEntry.mk "a" 1%nat] (Some "TypeError"),
          [ODict ∅; ODict ∅]).
Proof. reflexivity. Qed.

Lemma failure_log_counterexample : ~ failure_log_as_claimed.
Proof.
  intros Hclaim.
  destruct (Hclaim message keep_registry order_graph (new_run (VRef 0%nat))
              [ODict ∅] [] "a"
              (Run.set_status RUNNING (new_run (VRef 0%nat))) [ODict ∅]
              TypeError
              (Run.mk "r" "g" RUNNING (Some "a") (VRef 0%nat)
                 [RunLogEntry.mk "a" 1%nat] None, [ODict ∅; ODict ∅])
              1%nat)
    as (run' & h' & Hrun & _ & _ & _ & Hlog).
  - apply visits_nil.
  - reflexivity.
  - simpl. lia.
  - rewrite order_graph_run in Hrun. injection Hrun as <- _.
    discriminate Hlog.
Qed.

(** ** State replacement *)

(** The copy made for the log leaves every object of the heap as it is. *)
Lemma visit_keeps_tool_heap reg graph n r h node tool new_state h1 res r' h' :
  GraphDef.nodes graph !! n = Some node ->
  ToolRegistry.get reg (NodeDef.tool node) = Ok tool ->
  tool (Run.state r) h = (Ok new_state, h1) ->
  visit reg graph n (r, h) = (res, (r', h')) ->
  Run.state r' = new_state /\ exists copied, h' = h1 ++ copied.
Proof.
  intros Hnode Hreg Htool. rewrite visit_eq. simpl.
  rewrite Hnode. simpl. rewrite Hreg. simpl. rewrite Htool. simpl.
  destruct new_state as [| | | |l];
    try (intros [= _ <- <-]; split; [done|]; exists []; by rewrite app_nil_r).
  destruct (h1 !! l) as [[xs|d]|]; intros [= _ <- <-]; split; try done.
  - by eexists.
  - by eexists.
  - exists []. by rewrite app_nil_r.
Qed.

(** C4. State replacement: at every visit whose tool returns, what the
    tool returned becomes [run.state] as it is, whatever the state was
    before and however the visit goes on; when it is a dict [d], the
    state of the run is that dict, with the keys of [d] and no other. *)
Theorem state_replaced reg graph n r h node tool l d h1 res r' h' :
  GraphDef.nodes graph !! n = Some node ->
  ToolRegistry.get reg (NodeDef.tool node) = Ok tool ->
  tool (Run.state r) h = (Ok (VRef l), h1) ->
  h1 !! l = Some (ODict d) ->
  visit reg graph n (r, h) = (res, (r', h')) ->
  Run.state r' = VRef l
  /\ h' !! l = Some (ODict d)
  /\ forall key, state_get h' (Run.state r') key = Ok (default VNone (d !! key)).
Proof.
  intros Hnode Hreg Htool Hdict Hvisit.
  destruct (visit_keeps_tool_heap _ _ _ _ _ _ _ _ _ _ _ _ Hnode Hreg Htool Hvisit)
    as [Hstate [copied ->]].
  assert ((h1 ++ copied) !! l = Some (ODict d)) as Hl
    by by apply lookup_app_l_Some.
  split; [done|]. split; [done|].
  intros key. rewrite Hstate. unfold state_get. by rewrite Hl.
Qed.

Lemma state_replaced_witness :
  exists r' h',
    visit a1_registry a1_graph "only" (new_run (VRef 0%nat), a0_b2_heap)
    = (Ok None, (r', h'))
    /\ Run.state r' = VRef 1%nat
    /\ h' !! 1%nat = Some (ODict {["a" := VInt 1]})
    /\ state_get h' (Run.state r') "a" = Ok (VInt 1)
    /\ state_get h' (Run.state r') "b" = Ok VNone.
Proof.
  eexists _, _. split; [reflexivity|].
  destruct (state_replaced a1_registry a1_graph "only"
              (new_run (VRef 0%nat)) a0_b2_heap
              (NodeDef.mk "only" "return_a1") return_a1 1%nat
              {["a" := VInt 1]}
              (a0_b2_heap ++ [ODict {["a" := VInt 1]}])
              (Ok None) _ _
              eq_refl eq_refl eq_refl eq_refl eq_refl)
    as (Hstate & Hdict & Hget).
  split; [exact Hstate|]. split; [exact Hdict|].
  split; [exact (Hget "a") | exact (Hget "b")].
Defined.

(** The same scenario as a whole run: [run.state == {"a": 1}] at the
    end, and it is not equal to the merged [{"a": 1, "b": 2}]. *)
Example whole_run_replaces_state :
  exists run' h',
    execute_graph message a1_registry 1 a1_graph (new_run (VRef 0%nat)) a0_b2_heap
    = Some (run', h')
    /\ Run.status run' = COMPLETED
    /\ py_eq h' (Run.state run') (LDict [("a", LInt 1)]) = true
    /\ py_eq h' (Run.state run') (LDict [("a", LInt 1); ("b", LInt 2)]) = false.
Proof. eexists _, _. split; [reflexivity|]. by vm_compute. Qed.

(** ** Log snapshots *)

(** C5 on the code. The snapshot of a log entry is a shallow copy: it
    shares the nested values of the state.  In the run of [items_graph],
    the entry of [a] is recorded with snapshot [{"items": [1]}]; the tool
    of [b] then appends to the list of the state, and at the end of the
    run the same entry's snapshot reads [{"items": [1, 2]}]. *)
Theorem snapshot_shares_nested_values :
  exists r1 h1 run' h' snapshot_a snapshot_b,
    (* after the visit of a *)
    visit items_registry items_graph "a"
      (Run.set_status RUNNING (new_run (VRef 0%nat)), [ODict ∅])
    = (Ok (Some "b"), (r1, h1))
    /\ Run.log r1 = [RunLogEntry.mk "a" snapshot_a]
    /\ py_eq h1 (Run.state r1) (LDict [("items", LList [LInt 1])]) = true
    /\ py_eq h1 (VRef snapshot_a) (LDict [("items", LList [LInt 1])]) = true
    (* at the end of the run *)
    /\ execute_graph message items_registry 2 items_graph
         (new_run (VRef 0%nat)) [ODict ∅]
       = Some (run', h')
    /\ Run.status run' = COMPLETED
    /\ Run.log run' = [RunLogEntry.mk "a" snapshot_a; RunLogEntry.mk "b" snapshot_b]
    /\ py_eq h' (VRef snapshot_a) (LDict [("items", LList [LInt 1])]) = false
    /\ py_eq h' (VRef snapshot_a) (LDict [("items", LList [LInt 1; LInt 2])]) = true.
Proof.
  eexists _, _, _, _, _, _.
  split; [reflexivity|]. split; [reflexivity|].
  split; [by vm_compute|]. split; [by vm_compute|].
  split; [reflexivity|]. split; [reflexivity|]. split; [reflexivity|].
  split; by vm_compute.
Qed.

(** ** The counting loop, end to end *)

Lemma count_graph_loop :
  while_loop count_registry 3 count_graph (Some "start")
    (Run.set_status RUNNING (new_run (VRef 0%nat)), count_heap 0)
  = Some (Ok tt,
          (Run.mk "r" "g" RUNNING (Some "start") (VRef 0%nat)
             [ RunLogEntry.mk "start" 1%nat; RunLogEntry.mk "start" 2%nat;
               RunLogEntry.mk "start" 3%nat ] None,
           [ ODict {["count" := VInt 3]}; ODict {["count" := VInt 1]};
             ODict {["count" := VInt 2]}; ODict {["count" := VInt 3]} ])).
Proof. by vm_compute. Qed.

(** C6. The counting loop from [{"count": 0}]: with fuel for three turns
    or more, the run ends COMPLETED after exactly three visits of
    [start], with three log entries and the state [{"count": 3}]; the
    three snapshots read 1, 2 and 3. *)
Theorem count_loop_end_to_end (str : exn -> string) (extra : nat) :
  exists run' h',
    execute_graph str count_registry (3 + extra) count_graph
      (new_run (VRef 0%nat)) (count_heap 0)
    = Some (run', h')
    /\ Run.status run' = COMPLETED
    /\ Run.current_node run' = None
    /\ Run.error run' = None
    /\ List.length (Run.log run') = 3%nat
    /\ map RunLogEntry.node (Run.log run') = ["start"; "start"; "start"]
    /\ py_eq h' (Run.state run') (LDict [("count", LInt 3)]) = true
    /\ map (fun e => h' !! RunLogEntry.state_snapshot e) (Run.log run')
       = [ Some (ODict {["count" := VInt 1]}); Some (ODict {["count" := VInt 2]});
           Some (ODict {["count" := VInt 3]}) ].
Proof.
  eexists _, _.
  change (execute_graph str count_registry (3 + extra) count_graph
            (new_run (VRef 0%nat)) (count_heap 0))
    with (settle str
            (while_loop count_registry (3 + extra) count_graph (Some "start")
               (Run.set_status RUNNING (new_run (VRef 0%nat)), count_heap 0))).
  rewrite (while_loop_fuel _ _ 3 extra _ _ _ count_graph_loop).
  split; [reflexivity|]. by vm_compute.
Qed.

(** Two turns are not enough: the loop is still at [start]. *)
Example count_loop_two_turns (str : exn -> string) :
  execute_graph str count_registry 2 count_graph
    (new_run (VRef 0%nat)) (count_heap 0) = None.
Proof. by vm_compute. Qed.

(** ** Comparison semantics *)

Lemma py_order_list h op l xs ys :
  h !! l = Some (OList xs) ->
  py_order h op (VRef l) (LList ys) = order_items h op xs ys.
Proof. intros Hl. simpl. by rewrite Hl. Qed.

Lemma order_items_first_difference h op same_x x xs same_y y ys :
  Forall2 (fun a b => py_eq h a b = true) same_x same_y ->
  py_eq h x y = false ->
  order_items h op (same_x ++ x :: xs) (same_y ++ y :: ys) = py_order h op x y.
Proof.
  intros Hsame Hdiff.
  induction Hsame as [|a b same_x same_y Hab _ IH]; simpl.
  - by rewrite Hdiff.
  - by rewrite Hab.
Qed.

Lemma py_order_incomparable h op a b :
  incomparable h a b -> py_order h op a b = Raise TypeError.
Proof.
  induction 1 as [a b Hkind|a|a kvs|l same_x x xs same_y y ys Hl Hsame Hdiff _ IH].
  - destruct b as [|c|m|t|ys|kvs]; try done;
      destruct a as [|c'|m'|s|l]; simpl in *; try done.
    destruct (h !! l) as [[xs|d]|]; done.
  - done.
  - done.
  - rewrite (py_order_list _ _ _ _ _ Hl).
    by rewrite order_items_first_difference.
Qed.

Lemma compare_incomparable h op a b :
  is_ordering op -> incomparable h a b -> _compare h a op b = Raise TypeError.
Proof.
  intros Hop Hinc. destruct op; try done; simpl;
    by apply py_order_incomparable.
Qed.

(** Conversely, an order that raises raises [TypeError], and the values
    have no order between them. *)
Lemma order_items_raises h op ys :
  Forall (fun y => forall a e, py_order h op a y = Raise e ->
                               e = TypeError /\ incomparable h a y) ys ->
  forall xs e,
    order_items h op xs ys = Raise e ->
    e = TypeError
    /\ exists same_x x xs' same_y y ys',
        xs = same_x ++ x :: xs' /\ ys = same_y ++ y :: ys'
        /\ Forall2 (fun a b => py_eq h a b = true) same_x same_y
        /\ py_eq h x y = false
        /\ incomparable h x y.
Proof.
  induction 1 as [|y ys Hy _ IH]; intros [|x xs] e; simpl; try done.
  destruct (py_eq h x y) eqn:Hxy.
  - intros Hrest. destruct (IH _ _ Hrest)
      as (-> & same_x & x' & xs' & same_y & y' & ys' & -> & -> & Hsame & Hd & Hinc).
    split; [done|].
    exists (x :: same_x), x', xs', (y :: same_y), y', ys'.
    repeat split; try done. by constructor.
  - intros Hraise. destruct (Hy _ _ Hraise) as [-> Hinc].
    split; [done|]. exists [], x, xs, [], y, ys.
    by repeat split.
Qed.

Local Ltac different_kinds :=
  apply incomparable_kinds; simpl;
  repeat match goal with |- context [?h !! ?l] => destruct (h !! l) as [[?|?]|] end;
  done.

Lemma py_order_raises h op b :
  forall a e, py_order h op a b = Raise e -> e = TypeError /\ incomparable h a b.
Proof.
  induction b as [|c|m|t|ys IH|kvs _] using literal_nested_ind; intros a e.
  - intros [= <-]. split; [done|]. apply incomparable_none.
  - destruct a; simpl; try done; intros [= <-]; split; try done;
      different_kinds.
  - destruct a; simpl; try done; intros [= <-]; split; try done;
      different_kinds.
  - destruct a; simpl; try done; intros [= <-]; split; try done;
      different_kinds.
  - destruct a as [| | | |l];
      try (intros [= <-]; split; [done|]; by apply incomparable_kinds).
    destruct (h !! l) as [[xs|d]|] eqn:Hl.
    + rewrite (py_order_list _ _ _ _ _ Hl). intros Hraise.
      destruct (order_items_raises _ _ _ IH _ _ Hraise)
        as (-> & same_x & x & xs' & same_y & y & ys' & -> & -> & Hsame & Hd & Hinc).
      split; [done|]. by eapply incomparable_items.
    + simpl. rewrite Hl. intros [= <-]. split; [done|].
      apply incomparable_kinds. simpl. by rewrite Hl.
    + simpl. rewrite Hl. intros [= <-]. split; [done|].
      apply incomparable_kinds. simpl. by rewrite Hl.
  - intros [= <-]. split; [done|]. apply incomparable_dict.
Qed.

(** An ordering operator raises exactly on values without an order. *)
Lemma compare_raises_iff h op a b :
  is_ordering op ->
  (exists e, _compare h a op b = Raise e) <-> incomparable h a b.
Proof.
  intros Hop. split.
  - intros [e Hraise]. destruct op; try done; simpl in Hraise;
      by apply py_order_raises in Hraise as [_ ?].
  - intros Hinc. exists TypeError. by apply compare_incomparable.
Qed.

(** The six operators on two integers and on two strings. *)
Lemma compare_int h op x y :
  _compare h (VInt x) op (LInt y)
  = Ok match op with
       | OpEq => bool_decide (x = y)
       | OpNe => bool_decide (x <> y)
       | OpLt => bool_decide (x < y)
       | OpGt => bool_decide (x > y)
       | OpLte => bool_decide (x <= y)
       | OpGte => bool_decide (x >= y)
       end.
Proof.
  destruct op; simpl; f_equal; case_bool_decide.
  all: try (by apply Z.eqb_eq); try (by apply Z.eqb_neq).
  all: try (apply negb_true_iff; by apply Z.eqb_neq).
  all: try (apply negb_false_iff, Z.eqb_eq; lia).
  all: try (apply Z.ltb_lt; lia); try (apply Z.ltb_ge; lia).
  all: try (apply Z.leb_le; lia); try (apply Z.leb_gt; lia).
Qed.

Lemma compare_str h op s t :
  _compare h (VStr s) op (LStr t)
  = Ok match op with
       | OpEq => bool_decide (s = t)
       | OpNe => bool_decide (s <> t)
       | OpLt => bool_decide (String.compare s t = Lt)
       | OpGt => bool_decide (String.compare t s = Lt)
       | OpLte => bool_decide (String.compare s t <> Gt)
       | OpGte => bool_decide (String.compare t s <> Gt)
       end.
Proof.
  destruct op; simpl; f_equal; unfold String.ltb, String.leb;
    case_bool_decide as Hd.
  all: try (by apply String.eqb_eq); try (by apply String.eqb_neq).
  all: try (apply negb_true_iff; by apply String.eqb_neq).
  all: try (apply negb_false_iff, String.eqb_eq;
            by destruct (decide (s = t)) as [|Hne]; [|destruct (Hd Hne)]).
  all: try (by rewrite Hd).
  all: try (by destruct (String.compare s t); try done; destruct Hd).
  all: try (by destruct (String.compare t s); try done; destruct Hd).
  apply negb_false_iff. by apply String.eqb_eq.
Qed.

(** An edge whose ordering condition compares values that have no order
    raises when it is evaluated. *)
Lemma edge_matches_incomparable h l d edge key :
  h !! l = Some (ODict d) ->
  EdgeDef.condition_key edge = Some key ->
  is_ordering (EdgeDef.operator edge) ->
  incomparable h (default VNone (d !! key)) (EdgeDef.value edge) ->
  edge_matches h (VRef l) edge = Raise TypeError.
Proof.
  intros Hl Hkey Hop Hinc. unfold edge_matches, state_get.
  rewrite Hkey, Hl. by apply compare_incomparable.
Qed.

(** C7. Comparison semantics: [_compare] computes [eq] as [a == b] and
    [ne] as its negation, for values of every shape and without ever
    raising; on two integers and on two strings the six operators are
    the six comparisons; the value read for an absent key is None, which
    [eq] and [ne] compare like any other value; an ordering operator on
    values that have no order between them raises [TypeError]; and a run
    that meets such an edge, as the first candidate that does not
    evaluate to false, ends FAILED with the message of that [TypeError],
    [execute_graph] returning as for any other failure. *)
Theorem compare_semantics :
  (forall h a b,
      _compare h a OpEq b = Ok (py_eq h a b)
      /\ _compare h a OpNe b = Ok (negb (py_eq h a b)))
  /\ (forall h op x y,
        _compare h (VInt x) op (LInt y)
        = Ok match op with
             | OpEq => bool_decide (x = y)
             | OpNe => bool_decide (x <> y)
             | OpLt => bool_decide (x < y)
             | OpGt => bool_decide (x > y)
             | OpLte => bool_decide (x <= y)
             | OpGte => bool_decide (x >= y)
             end)
  /\ (forall h op s t,
        _compare h (VStr s) op (LStr t)
        = Ok match op with
             | OpEq => bool_decide (s = t)
             | OpNe => bool_decide (s <> t)
             | OpLt => bool_decide (String.compare s t = Lt)
             | OpGt => bool_decide (String.compare t s = Lt)
             | OpLte => bool_decide (String.compare s t <> Gt)
             | OpGte => bool_decide (String.compare t s <> Gt)
             end)
  /\ (forall h l d key b,
        h !! l = Some (ODict d) -> d !! key = None ->
        state_get h (VRef l) key = Ok VNone
        /\ _compare h VNone OpEq b
           = Ok match b with LNone => true | _ => false end
        /\ _compare h VNone OpNe b
           = Ok match b with LNone => false | _ => true end)
  /\ (forall h op a b,
        is_ordering op -> incomparable h a b ->
        _compare h a op b = Raise TypeError)
  /\ (forall str reg graph run h ns n r hn node tool l h1 d pre edge post key,
        visits reg graph (start graph run h) ns (Some n, (r, hn)) ->
        GraphDef.nodes graph !! n = Some node ->
        ToolRegistry.get reg (NodeDef.tool node) = Ok tool ->
        tool (Run.state r) hn = (Ok (VRef l), h1) ->
        h1 !! l = Some (ODict d) ->
        GraphDef.edges graph = pre ++ edge :: post ->
        EdgeDef.from_node edge = n ->
        Forall (fun e => EdgeDef.from_node e = n ->
                         edge_matches (h1 ++ [ODict d]) (VRef l) e = Ok false) pre ->
        EdgeDef.condition_key edge = Some key ->
        is_ordering (EdgeDef.operator edge) ->
        incomparable (h1 ++ [ODict d]) (default VNone (d !! key))
                     (EdgeDef.value edge) ->
        forall fuel, (List.length ns < fuel)%nat ->
          exists run' h',
            execute_graph str reg fuel graph run h = Some (run', h')
            /\ Run.status run' = FAILED
            /\ Run.error run' = Some (str TypeError)
            /\ Run.current_node run' = Some n).
Proof.
  split; [done|]. split; [apply compare_int|]. split; [apply compare_str|].
  split.
  { intros h l d key b Hl Hkey. unfold state_get. rewrite Hl, Hkey.
    split; [done|]. by destruct b. }
  split; [apply compare_incomparable|].
  intros str reg graph run h ns n r hn node tool l h1 d pre edge post key
    Hvisits Hnode Hreg Htool Hdict Hedges Hfrom Hpre Hkey Hop Hinc fuel Hfuel.
  assert (raises_at reg graph n r hn EdgeEvaluation TypeError) as Hraises.
  { eapply raises_edge_evaluation; [done..| |].
    - rewrite logging_eq. by rewrite Hdict.
    - eapply next_node_raises; [done..|].
      eapply edge_matches_incomparable; [|done..].
      by apply lookup_app_l_Some. }
  destruct (visit_raises _ _ _ _ _ _ _ Hraises)
    as (r' & h' & _ & Hvisit & Hcur & _).
  exists (Run.set_error (Some (str TypeError)) (Run.set_status FAILED r')), h'.
  split; [by eapply execute_graph_stops|]. by simpl.
Qed.

(** [None < 3] in the run of [order_graph]; [1 < "a"]; [[1, None] <
    [1, 2]], whose first items that differ are None and 2. *)
Lemma compare_semantics_witness :
  _compare [OList [VInt 1; VNone]] (VRef 0%nat) OpLt (LList [LInt 1; LInt 2])
  = Raise TypeError
  /\ _compare [] (VInt 1) OpGte (LStr "a") = Raise TypeError
  /\ state_get [ODict ∅] (VRef 0%nat) "x" = Ok VNone
  /\ _compare [ODict ∅] VNone OpEq (LInt 3) = Ok false
  /\ exists run' h',
      execute_graph message keep_registry 1 order_graph
        (new_run (VRef 0%nat)) [ODict ∅] = Some (run', h')
      /\ Run.status run' = FAILED
      /\ Run.error run' = Some "TypeError"
      /\ Run.current_node run' = Some "a".
Proof.
  destruct compare_semantics as (_ & _ & _ & Hmissing & Hraise & Hrun).
  split.
  { apply Hraise; [exact I|].
    apply (incomparable_items _ 0%nat [VInt 1] VNone [] [LInt 1] (LInt 2) []).
    - reflexivity.
    - constructor; [reflexivity | constructor].
    - reflexivity.
    - apply incomparable_kinds. discriminate. }
  split.
  { apply Hraise; [exact I|]. apply incomparable_kinds. discriminate. }
  destruct (Hmissing [ODict ∅] 0%nat ∅ "x" (LInt 3) eq_refl (lookup_empty "x"))
    as (Hget & Heq & _).
  split; [exact Hget|]. split; [exact Heq|].
  apply (Hrun message keep_registry order_graph (new_run (VRef 0%nat))
           [ODict ∅] [] "a" (Run.set_status RUNNING (new_run (VRef 0%nat)))
           [ODict ∅] (NodeDef.mk "a" "keep") keep 0%nat [ODict ∅] ∅
           [] (EdgeDef.mk "a" "a" (Some "x") OpLt (LInt 3)) [] "x").
  - apply visits_nil.
  - reflexivity.
  - reflexivity.
  - reflexivity.
  - reflexivity.
  - reflexivity.
  - reflexivity.
  - constructor.
  - reflexivity.
  - exact I.
  - apply incomparable_kinds. discriminate.
  - simpl. lia.
Defined.

(** ** Graph creation *)

(** The node index binds a name to the last node that bears it. *)
Lemma nodes_dict_from (acc : gmap string NodeDef.t) nodes k :
  foldl (fun d n => <[NodeDef.name n := n]> d) acc nodes !! k
  = match last (List.filter (has_name k) nodes) with
    | Some n => Some n
    | None => acc !! k
    end.
Proof.
  revert acc. induction nodes as [|n nodes IH]; intros acc; simpl; [done|].
  rewrite IH. unfold has_name at 2.
  destruct (String.eqb_spec (NodeDef.name n) k) as [Heq|Hne].
  - rewrite last_cons.
    destruct (last (List.filter (has_name k) nodes)); [done|].
    by rewrite Heq, lookup_insert_eq.
  - destruct (last (List.filter (has_name k) nodes)); [done|].
    by rewrite lookup_insert_ne.
Qed.

Lemma nodes_dict_lookup nodes k :
  nodes_dict nodes !! k = last (List.filter (has_name k) nodes).
Proof.
  unfold nodes_dict. rewrite nodes_dict_from, lookup_empty.
  by destruct (last _).
Qed.

Lemma filter_has_name_nil nodes k :
  k ∉ map NodeDef.name nodes -> List.filter (has_name k) nodes = [].
Proof.
  induction nodes as [|n nodes IH]; simpl; [done|].
  intros Hnot. apply not_elem_of_cons in Hnot as [Hne Hnot].
  unfold has_name at 1.
  destruct (String.eqb_spec (NodeDef.name n) k) as [Heq|_]; [done|].
  by apply IH.
Qed.

Lemma nodes_dict_absent nodes k :
  k ∉ map NodeDef.name nodes -> nodes_dict nodes !! k = None.
Proof.
  intros Hnot. by rewrite nodes_dict_lookup, filter_has_name_nil.
Qed.

Lemma nodes_dict_last front n back :
  NodeDef.name n ∉ map NodeDef.name back ->
  nodes_dict (front ++ n :: back) !! NodeDef.name n = Some n.
Proof.
  intros Hnot. rewrite nodes_dict_lookup, List.filter_app. simpl.
  unfold has_name at 2. rewrite String.eqb_refl.
  rewrite (filter_has_name_nil back) by done.
  by rewrite last_snoc.
Qed.

Lemma nodes_dict_present nodes k :
  k ∈ map NodeDef.name nodes -> is_Some (nodes_dict nodes !! k).
Proof.
  induction nodes as [|n nodes IH] using rev_ind; simpl.
  - by intros ?%elem_of_nil.
  - rewrite map_app. simpl. intros Hin.
    destruct (decide (NodeDef.name n = k)) as [<-|Hne].
    + exists n. apply nodes_dict_last. simpl. apply not_elem_of_nil.
    + apply elem_of_app in Hin as [Hin|Hin].
      * destruct (IH Hin) as [m Hm]. exists m.
        rewrite nodes_dict_lookup in *. rewrite List.filter_app. simpl.
        unfold has_name at 2.
        destruct (String.eqb_spec (NodeDef.name n) k); [done|].
        by rewrite app_nil_r.
      * apply list_elem_of_singleton in Hin. by destruct Hne.
Qed.

(** C8. Graph creation validation: [create_graph] raises (HTTP 400,
    the invalid graph) exactly when [start_node] is not among the names
    of the supplied nodes, and then stores nothing; otherwise it stores
    the graph with the edges as supplied, whatever node names they
    mention; an edge to a name that is not a node makes the run fail
    only when the traversal comes to that name, with the [KeyError] of
    the node lookup, the nodes visited before it being logged. *)
Theorem create_graph_validation :
  (forall graph_id req GRAPHS,
      (GraphCreateRequest.start_node req
         ∉ map NodeDef.name (GraphCreateRequest.nodes req) ->
       create_graph graph_id req GRAPHS
       = (inl (mkHTTPException 400 "start_node must be one of the nodes"),
          GRAPHS))
      /\ (GraphCreateRequest.start_node req
            ∈ map NodeDef.name (GraphCreateRequest.nodes req) ->
          create_graph graph_id req GRAPHS
          = (inr graph_id,
             <[graph_id :=
                 GraphDef.mk graph_id
                   (nodes_dict (GraphCreateRequest.nodes req))
                   (GraphCreateRequest.edges req)
                   (GraphCreateRequest.start_node req)]> GRAPHS)))
  /\ (forall str reg graph run h ns n r hn,
        visits reg graph (start graph run h) ns (Some n, (r, hn)) ->
        GraphDef.nodes graph !! n = None ->
        forall fuel, (List.length ns < fuel)%nat ->
          exists run' h',
            execute_graph str reg fuel graph run h = Some (run', h')
            /\ Run.status run' = FAILED
            /\ Run.error run' = Some (str (KeyError n))
            /\ Run.current_node run' = Some n
            /\ map RunLogEntry.node (Run.log run')
               = map RunLogEntry.node (Run.log run) ++ ns).
Proof.
  split.
  - intros graph_id req GRAPHS. unfold create_graph. split; intros Hstart.
    + by rewrite nodes_dict_absent.
    + by destruct (nodes_dict_present _ _ Hstart) as [node ->].
  - intros str reg graph run h ns n r hn Hvisits Hnode fuel Hfuel.
    assert (raises_at reg graph n r hn NodeLookup (KeyError n)) as Hraises
      by by constructor.
    destruct (visit_raises _ _ _ _ _ _ _ Hraises)
      as (r' & h' & entries & Hvisit & Hcur & _ & Hlog & Hentries).
    exists (Run.set_error (Some (str (KeyError n))) (Run.set_status FAILED r')), h'.
    split; [by eapply execute_graph_stops|]. simpl.
    repeat split; [done|].
    apply map_eq_nil in Hentries. rewrite Hlog, Hentries, app_nil_r.
    apply visits_log in Hvisits. by simpl in Hvisits.
Qed.

Lemma create_graph_validation_witness :
  create_graph "g1"
    (GraphCreateRequest.mk [NodeDef.mk "a" "keep"] [] "ghost") ∅
  = (inl (mkHTTPException 400 "start_node must be one of the nodes"), ∅)
  /\ create_graph "g1" ghost_request ∅ = (inr "g1", {["g1" := ghost_graph]})
  /\ exists run' h',
      execute_graph message keep_registry 2 ghost_graph
        (new_run (VRef 0%nat)) [ODict ∅] = Some (run', h')
      /\ Run.status run' = FAILED
      /\ Run.error run' = Some "KeyError ghost"
      /\ Run.current_node run' = Some "ghost"
      /\ map RunLogEntry.node (Run.log run') = ["a"].
Proof.
  destruct create_graph_validation as [Hcreate Hrun].
  split.
  { apply (Hcreate "g1"
             (GraphCreateRequest.mk [NodeDef.mk "a" "keep"] [] "ghost") ∅).
    simpl. intros Hin. apply list_elem_of_singleton in Hin. discriminate Hin. }
  split.
  { apply (Hcreate "g1" ghost_request ∅). simpl.
    apply list_elem_of_singleton. reflexivity. }
  apply (Hrun message keep_registry ghost_graph (new_run (VRef 0%nat))
           [ODict ∅] ["a"] "ghost"
           (Run.mk "r" "g" RUNNING (Some "a") (VRef 0%nat)
              [RunLogEntry.mk "a" 1%nat] None)
           [ODict ∅; ODict ∅]).
  - eapply visits_cons; [reflexivity | apply visits_nil].
  - reflexivity.
  - simpl. lia.
Defined.

(** C9. Duplicate node names are collapsed silently: a request whose
    [start_node] is among its node names is accepted whether or not
    several nodes share a name, and the node index of the stored graph
    binds each name to the last node of the request that bears it, the
    earlier ones being dropped. *)
Theorem duplicate_names_last_wins graph_id req GRAPHS :
  GraphCreateRequest.start_node req
    ∈ map NodeDef.name (GraphCreateRequest.nodes req) ->
  exists graph,
    create_graph graph_id req GRAPHS = (inr graph_id, <[graph_id := graph]> GRAPHS)
    /\ (forall front n back,
          GraphCreateRequest.nodes req = front ++ n :: back ->
          NodeDef.name n ∉ map NodeDef.name back ->
          GraphDef.nodes graph !! NodeDef.name n = Some n)
    /\ (forall k,
          GraphDef.nodes graph !! k
          = last (List.filter (has_name k) (GraphCreateRequest.nodes req))).
Proof.
  intros Hstart. unfold create_graph.
  destruct (nodes_dict_present _ _ Hstart) as [node ->].
  eexists. split; [reflexivity|]. simpl. split.
  - intros front n back -> Hlast. by apply nodes_dict_last.
  - apply nodes_dict_lookup.
Qed.

Lemma duplicate_names_last_wins_witness :
  exists graph,
    create_graph "g1" twice_a_request ∅ = (inr "g1", {["g1" := graph]})
    /\ GraphDef.nodes graph !! "a" = Some (NodeDef.mk "a" "second")
    /\ GraphDef.nodes graph !! "b" = Some (NodeDef.mk "b" "keep").
Proof.
  destruct (duplicate_names_last_wins "g1" twice_a_request ∅)
    as (graph & Hcreate & Hlast & Hlookup).
  - simpl. apply list_elem_of_here.
  - exists graph. split; [exact Hcreate|]. split.
    + apply (Hlast [NodeDef.mk "a" "first"; NodeDef.mk "b" "keep"]
               (NodeDef.mk "a" "second") []); [reflexivity|].
      simpl. apply not_elem_of_nil.
    + rewrite (Hlookup "b"). reflexivity.
Defined.

(** ** An absent key against a defaulted condition *)

Lemma first_match_app_eq h state front rest rest' :
  first_match h state rest = first_match h state rest' ->
  first_match h state (front ++ rest) = first_match h state (front ++ rest').
Proof.
  intros Hrest. induction front as [|e front IH]; simpl; [done|].
  destruct (edge_matches h state e) as [[|]|]; done.
Qed.

(** C10. An absent condition key matches a defaulted condition: an edge
    with a [condition_key] that the state does not have, the default
    operator [eq] and the default value None is evaluated as a match,
    the value read for the absent key being None; and the selection made
    by [_next_node_name], at any node and wherever the edge stands among
    the edges, is the one it makes with the edge turned unconditional. *)
Theorem absent_key_matches_default h l d edge key :
  h !! l = Some (ODict d) ->
  EdgeDef.condition_key edge = Some key ->
  d !! key = None ->
  EdgeDef.operator edge = OpEq ->
  EdgeDef.value edge = LNone ->
  state_get h (VRef l) key = Ok VNone
  /\ edge_matches h (VRef l) edge = Ok true
  /\ forall graph pre post node_name,
       GraphDef.edges graph = pre ++ edge :: post ->
       _next_node_name h graph node_name (VRef l)
       = _next_node_name h (with_edges graph (pre ++ unconditional edge :: post))
           node_name (VRef l).
Proof.
  intros Hl Hkey Habsent Hop Hvalue.
  assert (state_get h (VRef l) key = Ok VNone) as Hget.
  { unfold state_get. by rewrite Hl, Habsent. }
  assert (edge_matches h (VRef l) edge = Ok true) as Hmatch.
  { unfold edge_matches. by rewrite Hkey, Hget, Hop, Hvalue. }
  split; [done|]. split; [done|].
  intros graph pre post node_name Hedges. unfold _next_node_name.
  rewrite Hedges. simpl. rewrite !List.filter_app. simpl.
  apply first_match_app_eq.
  change (from_nodeb node_name (unconditional edge))
    with (from_nodeb node_name edge).
  destruct (from_nodeb node_name edge); [|done].
  simpl. by rewrite Hmatch.
Qed.

Lemma absent_key_matches_default_witness :
  state_get (count_heap 0) (VRef 0%nat) "flag" = Ok VNone
  /\ edge_matches (count_heap 0) (VRef 0%nat) flag_edge = Ok true
  /\ _next_node_name (count_heap 0) flag_graph "a" (VRef 0%nat) = Ok (Some "b").
Proof.
  destruct (absent_key_matches_default (count_heap 0) 0%nat
              {["count" := VInt 0]} flag_edge "flag"
              eq_refl eq_refl eq_refl eq_refl eq_refl)
    as (Hget & Hmatch & Hnext).
  split; [exact Hget|]. split; [exact Hmatch|].
  rewrite (Hnext flag_graph [] [EdgeDef.mk "a" "c" None OpEq LNone] "a" eq_refl).
  reflexivity.
Defined.

(** * Further properties of the engine *)

(** ** Tool registry *)

(** X1. A tool that was registered is the one [get] returns, until the name
    is registered again: the last registration wins, and the other names
    are left as they were. *)
Theorem registry_get_register (_tools : gmap string ToolFunc) name func name' :
  ToolRegistry.get (ToolRegistry.register name func _tools) name'
  = if decide (name = name') then Ok func else ToolRegistry.get _tools name'.
Proof.
  unfold ToolRegistry.get, ToolRegistry.register.
  rewrite lookup_insert. by case_decide.
Qed.

Lemma registry_register_twice (_tools : gmap string ToolFunc) name func func' :
  ToolRegistry.register name func' (ToolRegistry.register name func _tools)
  = ToolRegistry.register name func' _tools.
Proof. apply insert_insert_eq. Qed.

(** ** Edge selection, read backwards *)

(** What [first_match] returns, from what the candidates evaluate to. *)
Lemma first_match_inv h state candidates res :
  first_match h state candidates = res ->
  match res with
  | Ok (Some target) =>
      exists pre edge post,
        candidates = pre ++ edge :: post
        /\ Forall (fun e => edge_matches h state e = Ok false) pre
        /\ edge_matches h state edge = Ok true
        /\ EdgeDef.to_node edge = target
  | Ok None => Forall (fun e => edge_matches h state e = Ok false) candidates
  | Raise exc =>
      exists pre edge post,
        candidates = pre ++ edge :: post
        /\ Forall (fun e => edge_matches h state e = Ok false) pre
        /\ edge_matches h state edge = Raise exc
  end.
Proof.
  intros <-. induction candidates as [|e es IH]; simpl; [constructor|].
  destruct (edge_matches h state e) as [[|]|exc] eqn:He.
  - by exists [], e, es.
  - destruct (first_match h state es) as [[target|]|exc].
    + destruct IH as (pre & edge & post & -> & Hpre & Hedge & Hto).
      exists (e :: pre), edge, post. repeat split; try done. by constructor.
    + by constructor.
    + destruct IH as (pre & edge & post & -> & Hpre & Hedge).
      exists (e :: pre), edge, post. repeat split; try done. by constructor.
  - by exists [], e, es.
Qed.

(** Splitting the candidates splits the edges they were filtered from. *)
Lemma filter_from_node_split node_name es pre edge post :
  List.filter (from_nodeb node_name) es = pre ++ edge :: post ->
  exists pre' post',
    es = pre' ++ edge :: post'
    /\ List.filter (from_nodeb node_name) pre' = pre
    /\ EdgeDef.from_node edge = node_name.
Proof.
  revert pre. induction es as [|e es IH]; intros pre; simpl.
  - by destruct pre.
  - destruct (from_nodeb node_name e) eqn:Hfrom.
    + destruct pre as [|p pre]; simpl; intros [= -> Hrest].
      * exists [], es. repeat split; try done. by apply from_nodeb_true.
      * destruct (IH _ Hrest) as (pre' & post' & -> & <- & Hedge).
        exists (p :: pre'), post'. repeat split; try done.
        simpl. by rewrite Hfrom.
    + intros Hrest. destruct (IH _ Hrest) as (pre' & post' & -> & <- & Hedge).
      exists (e :: pre'), post'. repeat split; try done.
      simpl. by rewrite Hfrom.
Qed.

Lemma filter_no_match h state node_name es :
  Forall (fun e => edge_matches h state e = Ok false)
         (List.filter (from_nodeb node_name) es) ->
  Forall (fun e => EdgeDef.from_node e = node_name ->
                   edge_matches h state e = Ok false) es.
Proof.
  induction es as [|e es IH]; simpl; [constructor|].
  destruct (from_nodeb node_name e) eqn:Hfrom.
  - intros Hall. apply Forall_cons in Hall as [He Hall].
    constructor; [done | by apply IH].
  - intros Hall. constructor; [|by apply IH].
    intros Heq. apply from_nodeb_true in Heq. congruence.
Qed.

(** X2. The node selected is never made up: when [_next_node_name] returns a
    node, it is the [to_node] of an edge of the graph that leaves
    [node_name] and matches, and every edge from [node_name] declared
    before it was evaluated and did not match. *)
Theorem next_node_is_first_matching_edge h graph node_name state target :
  _next_node_name h graph node_name state = Ok (Some target) ->
  exists pre edge post,
    GraphDef.edges graph = pre ++ edge :: post
    /\ EdgeDef.from_node edge = node_name
    /\ EdgeDef.to_node edge = target
    /\ edge_matches h state edge = Ok true
    /\ Forall (fun e => EdgeDef.from_node e = node_name ->
                        edge_matches h state e = Ok false) pre.
Proof.
  unfold _next_node_name. intros Hsel.
  apply first_match_inv in Hsel
    as (pre & edge & post & Hsplit & Hpre & Hedge & Hto).
  destruct (filter_from_node_split _ _ _ _ _ Hsplit)
    as (pre' & post' & Hedges & <- & Hfrom).
  exists pre', edge, post'. repeat split; try done.
  by apply filter_no_match.
Qed.

Lemma next_node_is_first_matching_edge_witness :
  exists pre edge post,
    two_matches_edges = pre ++ edge :: post
    /\ EdgeDef.from_node edge = "a"
    /\ EdgeDef.to_node edge = "b"
    /\ edge_matches (count_heap 0) (VRef 0%nat) edge = Ok true
    /\ Forall (fun e => EdgeDef.from_node e = "a" ->
                        edge_matches (count_heap 0) (VRef 0%nat) e = Ok false) pre.
Proof.
  apply (next_node_is_first_matching_edge (count_heap 0) two_matches_graph "a"
           (VRef 0%nat) "b").
  reflexivity.
Defined.

(** X3. The selection is [None], which ends the run, exactly when every edge
    that leaves [node_name] was evaluated and did not match; an edge
    whose evaluation raises does not end the run that way. *)
Theorem next_node_none_iff h graph node_name state :
  _next_node_name h graph node_name state = Ok None
  <-> Forall (fun e => EdgeDef.from_node e = node_name ->
                       edge_matches h state e = Ok false)
             (GraphDef.edges graph).
Proof.
  split; [|apply next_node_no_match].
  unfold _next_node_name. intros Hsel.
  apply first_match_inv in Hsel. by apply filter_no_match.
Qed.

Lemma next_node_none_iff_witness :
  _next_node_name (count_heap 3) count_graph "start" (VRef 0%nat) = Ok None.
Proof.
  apply (next_node_none_iff (count_heap 3) count_graph "start" (VRef 0%nat)).
  constructor; [intros _; reflexivity | constructor].
Defined.

(** When the selection raises, it is the first edge from [node_name]
    that does not evaluate to false that raised. *)
Lemma next_node_raise_inv h graph node_name state exc :
  _next_node_name h graph node_name state = Raise exc ->
  exists pre edge post,
    GraphDef.edges graph = pre ++ edge :: post
    /\ EdgeDef.from_node edge = node_name
    /\ edge_matches h state edge = Raise exc
    /\ Forall (fun e => EdgeDef.from_node e = node_name ->
                        edge_matches h state e = Ok false) pre.
Proof.
  unfold _next_node_name. intros Hsel.
  apply first_match_inv in Hsel as (pre & edge & post & Hsplit & Hpre & Hedge).
  destruct (filter_from_node_split _ _ _ _ _ Hsplit)
    as (pre' & post' & Hedges & <- & Hfrom).
  exists pre', edge, post'. repeat split; try done.
  by apply filter_no_match.
Qed.

(** ** The run loop, read backwards *)

Local Ltac no_entry :=
  repeat split; exists []; rewrite app_nil_r;
  repeat split; [simpl; lia | constructor].

(** What a visit never touches, and the log it only appends to. *)
Lemma visit_frame reg graph n r h res r' h' :
  visit reg graph n (r, h) = (res, (r', h')) ->
  Run.id r' = Run.id r
  /\ Run.graph_id r' = Run.graph_id r
  /\ Run.status r' = Run.status r
  /\ Run.error r' = Run.error r
  /\ Run.current_node r' = Some n
  /\ exists entries,
      Run.log r' = Run.log r ++ entries
      /\ (List.length entries <= 1)%nat
      /\ Forall (fun e => RunLogEntry.node e = n) entries.
Proof.
  rewrite visit_eq. simpl.
  destruct (GraphDef.nodes graph !! n) as [node|].
  2:{ intros [= _ <- _]. no_entry. }
  destruct (ToolRegistry.get reg (NodeDef.tool node)) as [tool|e].
  2:{ intros [= _ <- _]. no_entry. }
  destruct (tool (Run.state r) h) as [[v|e] h1].
  2:{ intros [= _ <- _]. no_entry. }
  destruct v as [| | | |l];
    try (intros [= _ <- _]; no_entry).
  destruct (h1 !! l) as [[xs|d]|];
    try (intros [= _ <- _]; no_entry).
  intros [= _ <- _]. repeat split. eexists [_]. simpl.
  repeat split; [lia|]. by constructor.
Qed.

(** A visit that goes through moves along an edge of the graph. *)
Lemma visit_ok_edge reg graph n s m s' :
  visit reg graph n s = (Ok (Some m), s') -> has_edge graph n m.
Proof.
  destruct s as [r h]. rewrite visit_eq. simpl.
  destruct (GraphDef.nodes graph !! n) as [node|]; [|done].
  destruct (ToolRegistry.get reg (NodeDef.tool node)) as [tool|e]; [|done].
  destruct (tool (Run.state r) h) as [[v|e] h1]; [|done].
  destruct v as [| | | |l]; try done.
  destruct (h1 !! l) as [[xs|d]|]; try done.
  intros [= Hsel _]. unfold _next_node_name in Hsel.
  apply first_match_inv in Hsel as (pre & edge & post & Hsplit & _ & _ & Hto).
  destruct (filter_from_node_split _ _ _ _ _ Hsplit)
    as (pre' & post' & Hedges & _ & Hfrom).
  exists edge. split; [|done]. rewrite Hedges.
  apply elem_of_app. right. apply list_elem_of_here.
Qed.

(** The nodes of a visit sequence, with the node the loop has come to,
    are a walk in the graph. *)
Lemma visits_walk reg graph c ns c' :
  visits reg graph c ns c' ->
  walk graph (ns ++ option_list c'.1)
  /\ (ns <> [] -> c.1 = head ns).
Proof.
  induction 1 as [[[m|] s]|n s next s' ns c Hv Hrest [IH Hhead]]; simpl.
  - split; [constructor | done].
  - split; [constructor | done].
  - split; [|done].
    destruct ns as [|n' ns].
    + inversion Hrest; subst. simpl.
      destruct next as [m|]; simpl; [|constructor].
      constructor; [by eapply visit_ok_edge | constructor].
    + simpl in *. assert (next = Some n') as -> by by apply Hhead.
      constructor; [by eapply visit_ok_edge | done].
Qed.

Lemma walk_app_l graph ns ms : walk graph (ns ++ ms) -> walk graph ns.
Proof.
  revert ms. induction ns as [|n [|m ns] IH]; intros ms Hwalk; simpl in *.
  - constructor.
  - constructor.
  - inversion Hwalk; subst. constructor; [done|]. by eapply IH.
Qed.

(** What the visits of a run leave untouched. *)
Lemma visits_frame reg graph c ns c' :
  visits reg graph c ns c' ->
  Run.id c'.2.1 = Run.id c.2.1
  /\ Run.graph_id c'.2.1 = Run.graph_id c.2.1
  /\ Run.status c'.2.1 = Run.status c.2.1
  /\ Run.error c'.2.1 = Run.error c.2.1
  /\ exists entries,
      Run.log c'.2.1 = Run.log c.2.1 ++ entries
      /\ map RunLogEntry.node entries = ns.
Proof.
  induction 1 as [c|n [r h] next [r' h'] ns c Hv _ IH]; simpl in *.
  - repeat split. exists []. by rewrite app_nil_r.
  - destruct (visit_frame _ _ _ _ _ _ _ _ Hv)
      as (Hid & Hgid & Hst & Herr & _ & _).
    destruct (visit_ok_log _ _ _ _ _ _ _ _ Hv) as [snapshot Hlog].
    destruct IH as (-> & -> & -> & -> & entries & -> & <-).
    repeat split; try done.
    exists (RunLogEntry.mk n snapshot :: entries).
    rewrite Hlog, <- app_assoc. done.
Qed.

(** Every way the loop ends is a sequence of visits that went through,
    then either the selection of no node or a visit that raised. *)
Lemma while_loop_inv reg graph fuel :
  forall node_name s res s',
    while_loop reg fuel graph node_name s = Some (res, s') ->
    exists ns c,
      visits reg graph (node_name, s) ns c
      /\ (List.length ns <= fuel)%nat
      /\ match res with
         | Ok _ => c = (None, s')
         | Raise exc =>
             exists n s1,
               c = (Some n, s1)
               /\ visit reg graph n s1 = (Raise exc, s')
               /\ (List.length ns < fuel)%nat
         end.
Proof.
  induction fuel as [|fuel IH]; intros [n|] s res s'; simpl; try done.
  - intros [= <- <-]. exists [], (None, s).
    split; [apply visits_nil|]. split; [simpl; lia | done].
  - destruct (visit reg graph n s) as [[next|exc] s1] eqn:Hv.
    + intros Hloop. destruct (IH _ _ _ _ Hloop) as (ns & c & Hvisits & Hlen & Hres).
      exists (n :: ns), c. split; [by econstructor|]. split; [simpl; lia|].
      destruct res as [u|exc]; [done|].
      destruct Hres as (m & s2 & -> & Hraise & Hlt).
      exists m, s2. repeat split; try done. simpl. lia.
    + intros [= <- <-]. exists [], (Some n, s). split; [apply visits_nil|].
      split; [simpl; lia|]. exists n, s. repeat split; try done. simpl. lia.
  - intros [= <- <-]. exists [], (None, s).
    split; [apply visits_nil|]. split; [simpl; lia | done].
Qed.

(** The status [execute_graph] leaves, with what is never changed. *)
Lemma execute_graph_status_terminal str reg fuel graph run h run' h' :
  execute_graph str reg fuel graph run h = Some (run', h') ->
  Run.id run' = Run.id run
  /\ Run.graph_id run' = Run.graph_id run
  /\ (Run.status run' = COMPLETED \/ Run.status run' = FAILED).
Proof.
  rewrite execute_graph_settle. unfold start. simpl.
  destruct (while_loop _ _ _ _ _) as [[res [r1 h1]]|] eqn:Hloop; [|done].
  destruct (while_loop_inv _ _ _ _ _ _ _ Hloop) as (ns & c & Hvisits & _ & Hres).
  destruct (visits_frame _ _ _ _ _ Hvisits) as (Hid & Hgid & _).
  simpl in *. destruct res as [u|exc]; simpl; intros [= <- <-]; simpl.
  - subst c. simpl in *. repeat split; try done. by left.
  - destruct Hres as (n & [r2 h2] & -> & Hraise & _). simpl in *.
    destruct (visit_frame _ _ _ _ _ _ _ _ Hraise) as (Hid' & Hgid' & _).
    repeat split; [congruence..|]. by right.
Qed.

(** X4. Whenever [execute_graph] returns, the run is in one of its two
    terminal states and never in another: COMPLETED with [current_node]
    cleared and [error] as it was, or FAILED with [current_node] the node
    that failed and [error] the message of an exception; [id] and
    [graph_id] are never changed. *)
Theorem execute_graph_ends_terminal str reg fuel graph run h run' h' :
  execute_graph str reg fuel graph run h = Some (run', h') ->
  Run.id run' = Run.id run
  /\ Run.graph_id run' = Run.graph_id run
  /\ ((Run.status run' = COMPLETED
       /\ Run.current_node run' = None
       /\ Run.error run' = Run.error run)
      \/ (Run.status run' = FAILED
          /\ exists n exc,
              Run.current_node run' = Some n
              /\ Run.error run' = Some (str exc))).
Proof.
  rewrite execute_graph_settle. unfold start. simpl.
  destruct (while_loop _ _ _ _ _) as [[res [r1 h1]]|] eqn:Hloop; [|done].
  destruct (while_loop_inv _ _ _ _ _ _ _ Hloop) as (ns & c & Hvisits & _ & Hres).
  destruct (visits_frame _ _ _ _ _ Hvisits) as (Hid & Hgid & _ & Herr & _).
  simpl in *. destruct res as [u|exc]; simpl; intros [= <- <-]; simpl.
  - subst c. simpl in *. repeat split; try done. by left.
  - destruct Hres as (n & [r2 h2] & -> & Hraise & _). simpl in *.
    destruct (visit_frame _ _ _ _ _ _ _ _ Hraise)
      as (Hid' & Hgid' & _ & _ & Hcur & _).
    repeat split; [congruence..|]. right. split; [done|]. by exists n, exc.
Qed.

Lemma execute_graph_ends_terminal_witness :
  exists run' h',
    execute_graph message broken_registry 2 broken_graph
      (new_run (VRef 0%nat)) [ODict ∅] = Some (run', h')
    /\ Run.id run' = "r"
    /\ Run.graph_id run' = "g"
    /\ ((Run.status run' = COMPLETED
         /\ Run.current_node run' = None
         /\ Run.error run' = None)
        \/ (Run.status run' = FAILED
            /\ exists n exc,
                Run.current_node run' = Some n
                /\ Run.error run' = Some (message exc))).
Proof.
  eexists _, _. split; [reflexivity|].
  eapply (execute_graph_ends_terminal message broken_registry 2 broken_graph
            (new_run (VRef 0%nat)) [ODict ∅]).
  reflexivity.
Defined.

(** X5. The log is append-only and follows the graph: what [execute_graph]
    returns has the log it was given, followed by at most one entry per
    turn of the loop; the nodes of the new entries start at [start_node]
    and each one has an edge of the graph to the next. *)
Theorem execute_graph_log_walk str reg fuel graph run h run' h' :
  execute_graph str reg fuel graph run h = Some (run', h') ->
  exists entries,
    Run.log run' = Run.log run ++ entries
    /\ (List.length entries <= fuel)%nat
    /\ walk graph (map RunLogEntry.node entries)
    /\ (entries <> [] ->
        head (map RunLogEntry.node entries) = Some (GraphDef.start_node graph)).
Proof.
  rewrite execute_graph_settle. unfold start. simpl.
  destruct (while_loop _ _ _ _ _) as [[res [r1 h1]]|] eqn:Hloop; [|done].
  destruct (while_loop_inv _ _ _ _ _ _ _ Hloop) as (ns & c & Hvisits & Hlen & Hres).
  destruct (visits_frame _ _ _ _ _ Hvisits)
    as (_ & _ & _ & _ & entries & Hlog & Hnodes).
  destruct (visits_walk _ _ _ _ _ Hvisits) as [Hwalk Hhead].
  simpl in *. destruct res as [u|exc]; simpl; intros [= <- <-]; simpl.
  - subst c. simpl in *. exists entries. rewrite app_nil_r in Hwalk.
    rewrite Hnodes. split; [done|]. split.
    { by rewrite <- Hnodes, length_map in Hlen. }
    split; [done|]. intros Hne. symmetry. apply Hhead.
    intros ->. by destruct entries.
  - destruct Hres as (n & [r2 h2] & -> & Hraise & Hlt). simpl in *.
    destruct (visit_frame _ _ _ _ _ _ _ _ Hraise)
      as (_ & _ & _ & _ & _ & last & Hlast & Hone & Hnode).
    exists (entries ++ last). rewrite Hlast, Hlog, <- app_assoc.
    split; [done|]. rewrite length_app, map_app, Hnodes.
    split. { rewrite <- Hnodes, length_map in Hlt. lia. }
    destruct last as [|e [|e' last]]; simpl in *; [| |lia].
    + rewrite app_nil_r. split; [by eapply walk_app_l|].
      intros Hne. symmetry. apply Hhead. intros ->. by destruct entries.
    + apply Forall_cons in Hnode as [-> _]. split; [done|]. intros _.
      destruct ns as [|n0 ns].
      * inversion Hvisits; subst. done.
      * simpl. symmetry. by apply Hhead.
Qed.

Lemma execute_graph_log_walk_witness :
  exists run' h' entries,
    execute_graph message count_registry 3 count_graph
      (new_run (VRef 0%nat)) (count_heap 0) = Some (run', h')
    /\ Run.log run' = [] ++ entries
    /\ (List.length entries <= 3)%nat
    /\ walk count_graph (map RunLogEntry.node entries)
    /\ (entries <> [] -> head (map RunLogEntry.node entries) = Some "start").
Proof.
  destruct (execute_graph_log_walk message count_registry 3 count_graph
              (new_run (VRef 0%nat)) (count_heap 0)
              (Run.mk "r" "g" COMPLETED None (VRef 0%nat)
                 [ RunLogEntry.mk "start" 1%nat; RunLogEntry.mk "start" 2%nat;
                   RunLogEntry.mk "start" 3%nat ] None)
              [ ODict {["count" := VInt 3]}; ODict {["count" := VInt 1]};
                ODict {["count" := VInt 2]}; ODict {["count" := VInt 3]} ])
    as (entries & H).
  - by vm_compute.
  - eexists _, _, entries. split; [by vm_compute | exact H].
Defined.

(** ** Runs that do not end *)

(** Visits that lead to a node again need more fuel than their number. *)
Lemma while_loop_short reg graph c ns m s' :
  visits reg graph c ns (Some m, s') ->
  forall fuel, (fuel <= List.length ns)%nat ->
    while_loop reg fuel graph c.1 c.2 = None.
Proof.
  remember (Some m, s') as c' eqn:Hc'.
  induction 1 as [c|n s next s1 ns c Hv _ IH]; intros fuel Hfuel; simpl in *.
  - subst c. by destruct fuel; [|lia].
  - destruct fuel as [|fuel]; [done|]. simpl. rewrite Hv.
    apply (IH Hc'). lia.
Qed.

(** A loop that keeps coming back to [n] in a state from which it comes
    back again never ends, whatever the fuel. *)
Lemma cycle_never_ends reg graph n (Inv : Run.t * heap -> Prop) :
  (forall s, Inv s ->
     exists ns s', ns <> [] /\ visits reg graph (Some n, s) ns (Some n, s') /\ Inv s') ->
  forall fuel s, Inv s -> while_loop reg fuel graph (Some n) s = None.
Proof.
  intros Hcycle fuel.
  induction fuel as [fuel IH] using lt_wf_ind. intros s Hs.
  destruct (Hcycle s Hs) as (ns & s' & Hne & Hvisits & Hs').
  destruct (decide (fuel <= List.length ns)%nat) as [Hle|Hgt].
  - by apply (while_loop_short _ _ _ _ _ _ Hvisits).
  - replace fuel with (List.length ns + (fuel - List.length ns))%nat by lia.
    rewrite (while_loop_visits _ _ _ _ _ Hvisits). simpl.
    apply IH; [|done]. destruct ns; [done|]. simpl in *. lia.
Qed.

(** The edge selected, from the edges declared before it. *)
Lemma next_node_selects h graph node_name state pre edge post :
  GraphDef.edges graph = pre ++ edge :: post ->
  EdgeDef.from_node edge = node_name ->
  Forall (fun e => EdgeDef.from_node e = node_name ->
                   edge_matches h state e = Ok false) pre ->
  edge_matches h state edge = Ok true ->
  _next_node_name h graph node_name state = Ok (Some (EdgeDef.to_node edge)).
Proof.
  intros Hedges Hfrom Hpre Hmatch.
  unfold _next_node_name. rewrite Hedges, List.filter_app. simpl.
  apply from_nodeb_true in Hfrom. rewrite Hfrom.
  rewrite first_match_skip by by apply candidates_no_match.
  simpl. by rewrite Hmatch.
Qed.

(** X6. The engine has no iteration cap and detects no cycle: on a graph
    whose start node has, as its first outgoing edge, an unconditional
    edge to itself, and whose tool returns a dict whenever it is given
    one, [execute_graph] never returns, however many turns it is given. *)
Theorem unconditional_self_loop_never_ends
    str reg graph n node tool pre edge post run h :
  GraphDef.start_node graph = n ->
  GraphDef.nodes graph !! n = Some node ->
  ToolRegistry.get reg (NodeDef.tool node) = Ok tool ->
  (forall l h d, h !! l = Some (ODict d) ->
     exists l' h1 d', tool (VRef l) h = (Ok (VRef l'), h1)
                      /\ h1 !! l' = Some (ODict d')) ->
  GraphDef.edges graph = pre ++ edge :: post ->
  EdgeDef.from_node edge = n ->
  EdgeDef.to_node edge = n ->
  EdgeDef.condition_key edge = None ->
  Forall (fun e => EdgeDef.from_node e <> n) pre ->
  state_is_dict (run, h) ->
  forall fuel, execute_graph str reg fuel graph run h = None.
Proof.
  intros Hstart Hnode Hreg Htool Hedges Hfrom Hto Hkey Hpre Hstate fuel.
  rewrite execute_graph_settle. unfold start. simpl. rewrite Hstart.
  rewrite (cycle_never_ends reg graph n state_is_dict); [done| |].
  - intros [r h0] (l & d & Hl & Hd). simpl in *.
    destruct (Htool l h0 d Hd) as (l' & h1 & d' & Hcall & Hd').
    unfold ToolRegistry.get in Hreg.
    destruct (reg !! NodeDef.tool node) as [tool'|] eqn:Hreg'; [|done].
    injection Hreg as ->.
    exists [n]. eexists. split; [done|]. split.
    + eapply visits_cons; [|apply visits_nil].
      rewrite (visit_logged reg graph n r h0 node tool l' h1 d'); try done.
      * rewrite (next_node_selects _ _ _ _ pre edge post); try done.
        -- by rewrite Hto.
        -- eapply Forall_impl; [exact Hpre|]. by intros e Hne Heq.
        -- by apply edge_matches_unconditional.
      * by rewrite Hl.
    + exists l', d'. simpl. split; [done|]. by apply lookup_app_l_Some.
  - destruct Hstate as (l & d & Hl & Hd). by exists l, d.
Qed.

Lemma unconditional_self_loop_never_ends_witness :
  execute_graph message keep_registry 1000 self_loop_graph
    (new_run (VRef 0%nat)) [ODict ∅] = None.
Proof.
  apply (unconditional_self_loop_never_ends message keep_registry
           self_loop_graph "a" (NodeDef.mk "a" "keep") keep []
           (EdgeDef.mk "a" "a" None OpEq LNone) []
           (new_run (VRef 0%nat)) [ODict ∅]).
  - reflexivity.
  - reflexivity.
  - reflexivity.
  - intros l h d Hd. exists l, h, d. split; [reflexivity | exact Hd].
  - reflexivity.
  - reflexivity.
  - reflexivity.
  - reflexivity.
  - constructor.
  - exists 0%nat, ∅. split; reflexivity.
Defined.

(** ** Failures before the state is replaced *)

(** X7. A node bound to a tool that is not registered: the run fails when it
    comes to that node, with the [KeyError] of the registry as message;
    nothing was called, so the heap, the state and the log are as the
    visits before left them. *)
Theorem unregistered_tool_fails_run str reg graph run h ns n r hn node :
  visits reg graph (start graph run h) ns (Some n, (r, hn)) ->
  GraphDef.nodes graph !! n = Some node ->
  reg !! NodeDef.tool node = None ->
  forall fuel, (List.length ns < fuel)%nat ->
    exists run',
      execute_graph str reg fuel graph run h = Some (run', hn)
      /\ Run.status run' = FAILED
      /\ Run.error run'
         = Some (str (KeyError ("Tool '" +:+ NodeDef.tool node
                                +:+ "' is not registered")))
      /\ Run.current_node run' = Some n
      /\ Run.state run' = Run.state r
      /\ Run.log run' = Run.log r.
Proof.
  intros Hvisits Hnode Hreg fuel Hfuel.
  eexists. split.
  - eapply execute_graph_stops; [done| |done].
    rewrite visit_eq. simpl. rewrite Hnode. simpl.
    unfold ToolRegistry.get. by rewrite Hreg.
  - done.
Qed.

Lemma unregistered_tool_fails_run_witness :
  exists run',
    execute_graph message keep_registry 2 missing_tool_graph
      (new_run (VRef 0%nat)) [ODict ∅]
    = Some (run', [ODict ∅; ODict ∅])
    /\ Run.status run' = FAILED
    /\ Run.error run' = Some "KeyError Tool 'nowhere' is not registered"
    /\ Run.current_node run' = Some "b"
    /\ Run.state run' = VRef 0%nat
    /\ Run.log run' = [RunLogEntry.mk "a" 1%nat].
Proof.
  apply (unregistered_tool_fails_run message keep_registry missing_tool_graph
           (new_run (VRef 0%nat)) [ODict ∅] ["a"] "b"
           (Run.mk "r" "g" RUNNING (Some "a") (VRef 0%nat)
              [RunLogEntry.mk "a" 1%nat] None)
           [ODict ∅; ODict ∅] (NodeDef.mk "b" "nowhere")).
  - eapply visits_cons; [reflexivity | apply visits_nil].
  - reflexivity.
  - reflexivity.
  - simpl. lia.
Defined.

(** X8. A tool that raises: the run fails with the message of what the tool
    raised; [run.state] is not assigned, so it is still the value it had
    before the call, and the log has no entry for the node; what the
    tool did to the objects of the heap before raising stays done. *)
Theorem raising_tool_keeps_state str reg graph run h ns n r hn node tool exc h1 :
  visits reg graph (start graph run h) ns (Some n, (r, hn)) ->
  GraphDef.nodes graph !! n = Some node ->
  ToolRegistry.get reg (NodeDef.tool node) = Ok tool ->
  tool (Run.state r) hn = (Raise exc, h1) ->
  forall fuel, (List.length ns < fuel)%nat ->
    exists run',
      execute_graph str reg fuel graph run h = Some (run', h1)
      /\ Run.status run' = FAILED
      /\ Run.error run' = Some (str exc)
      /\ Run.current_node run' = Some n
      /\ Run.state run' = Run.state r
      /\ Run.log run' = Run.log r.
Proof.
  intros Hvisits Hnode Hreg Htool fuel Hfuel.
  eexists. split.
  - eapply execute_graph_stops; [done| |done].
    rewrite visit_eq. simpl. rewrite Hnode. simpl. rewrite Hreg. simpl.
    by rewrite Htool.
  - done.
Qed.

Lemma raising_tool_keeps_state_witness :
  exists run',
    execute_graph message mark_registry 1 mark_graph
      (new_run (VRef 0%nat)) [ODict ∅]
    = Some (run', [ODict {["seen" := VBool true]}])
    /\ Run.status run' = FAILED
    /\ Run.error run' = Some "boom"
    /\ Run.current_node run' = Some "a"
    /\ Run.state run' = VRef 0%nat
    /\ Run.log run' = [].
Proof.
  apply (raising_tool_keeps_state message mark_registry mark_graph
           (new_run (VRef 0%nat)) [ODict ∅] [] "a"
           (Run.set_status RUNNING (new_run (VRef 0%nat))) [ODict ∅]
           (NodeDef.mk "a" "mark_then_raise") mark_then_raise
           (ToolException "boom") [ODict {["seen" := VBool true]}]).
  - apply visits_nil.
  - reflexivity.
  - reflexivity.
  - reflexivity.
  - simpl. lia.
Defined.

(** ** Snapshots under tools that work in place *)

Lemma visit_in_place_frame reg graph n r h l d res r' h' :
  (forall name tool, reg !! name = Some tool -> in_place tool) ->
  Run.state r = VRef l ->
  h !! l = Some (ODict d) ->
  visit reg graph n (r, h) = (res, (r', h')) ->
  Run.state r' = VRef l
  /\ (exists d', h' !! l = Some (ODict d'))
  /\ (List.length h <= List.length h')%nat
  /\ (forall l', l' <> l -> (l' < List.length h)%nat -> h' !! l' = h !! l')
  /\ (forall entry, entry ∈ Run.log r' -> entry ∉ Run.log r ->
        (List.length h <= RunLogEntry.state_snapshot entry)%nat
        /\ h' !! RunLogEntry.state_snapshot entry = h' !! l).
Proof.
  intros Htools Hstate Hl. rewrite visit_eq. simpl.
  destruct (GraphDef.nodes graph !! n) as [node|].
  2:{ intros [= _ <- <-]. split_and!; eauto; by intros. }
  unfold ToolRegistry.get.
  destruct (reg !! NodeDef.tool node) as [tool|] eqn:Hreg.
  2:{ intros [= _ <- <-]. split_and!; eauto; by intros. }
  rewrite Hstate.
  destruct (tool (VRef l) h) as [[v|exc] h1] eqn:Htool;
    destruct (Htools _ _ Hreg l h d _ h1 Hl Htool)
      as (Hlen & Hothers & [d1 Hl1] & Hres).
  2:{ intros [= _ <- <-]. split_and!; eauto; by intros. }
  subst v. rewrite Hl1. intros [= _ <- <-]. simpl.
  split; [done|]. split; [exists d1; by apply lookup_app_l_Some|].
  split; [rewrite length_app; simpl; lia|]. split.
  - intros l' Hne Hlt. rewrite lookup_app_l by lia. by apply Hothers.
  - intros entry Hin Hnot. apply elem_of_app in Hin as [Hin|Hin]; [done|].
    apply list_elem_of_singleton in Hin as ->. simpl. split; [done|].
    by rewrite heap_lookup_new, (lookup_app_l_Some _ _ _ _ Hl1).
Qed.

(** X22. With tools that work in place, a run writes to its state dict
    and to nothing else: over any number of visits [run.state] stays the
    same dict object and every other object that existed keeps its
    value, in particular the snapshot of every log entry already
    recorded and the lists and dicts it holds. *)
Theorem in_place_tools_keep_snapshots reg graph c ns c' l d :
  (forall name tool, reg !! name = Some tool -> in_place tool) ->
  visits reg graph c ns c' ->
  Run.state c.2.1 = VRef l ->
  c.2.2 !! l = Some (ODict d) ->
  Run.state c'.2.1 = VRef l
  /\ (List.length c.2.2 <= List.length c'.2.2)%nat
  /\ (forall l', l' <> l -> (l' < List.length c.2.2)%nat ->
        c'.2.2 !! l' = c.2.2 !! l')
  /\ (forall entry, entry ∈ Run.log c.2.1 ->
        RunLogEntry.state_snapshot entry <> l ->
        (RunLogEntry.state_snapshot entry < List.length c.2.2)%nat ->
        c'.2.2 !! RunLogEntry.state_snapshot entry
        = c.2.2 !! RunLogEntry.state_snapshot entry).
Proof.
  intros Htools Hvisits. revert d.
  induction Hvisits as [c|n [r h] next [r' h'] ns c Hv _ IH]; intros d Hstate Hl;
    simpl in *.
  - repeat split; eauto.
  - destruct (visit_in_place_frame _ _ _ _ _ _ _ _ _ _ Htools Hstate Hl Hv)
      as (Hstate' & [d' Hl'] & Hlen & Hothers & _).
    destruct (IH d' Hstate' Hl') as (Hstate'' & Hlen' & Hothers' & _).
    assert (forall l', l' <> l -> (l' < List.length h)%nat -> c.2.2 !! l' = h !! l')
      as Hall.
    { intros l' Hne Hlt. rewrite Hothers' by (done || lia). by apply Hothers. }
    repeat split; [done | lia | done | ].
    intros entry _ Hne Hlt. by apply Hall.
Qed.

Lemma keep_in_place : in_place keep.
Proof.
  intros l h d res h' Hl [= <- <-]. repeat split; eauto.
Qed.

Lemma in_place_tools_keep_snapshots_witness :
  ([ODict ∅; ODict ∅; ODict ∅] : heap) !! 1%nat
  = ([ODict ∅; ODict ∅] : heap) !! 1%nat.
Proof.
  refine (proj1 (proj2 (proj2
    (in_place_tools_keep_snapshots keep_registry again_graph
       (Some "b", (Run.mk "r" "g" RUNNING (Some "a") (VRef 0%nat)
                     [RunLogEntry.mk "a" 1%nat] None,
                   [ODict ∅; ODict ∅]))
       ["b"]
       (None, (Run.mk "r" "g" RUNNING (Some "b") (VRef 0%nat)
                 [RunLogEntry.mk "a" 1%nat; RunLogEntry.mk "b" 2%nat] None,
               [ODict ∅; ODict ∅; ODict ∅]))
       0%nat ∅ _ _ _ _))) 1%nat _ _).
  - intros name tool Hreg. unfold keep_registry, ToolRegistry.register in Hreg.
    apply lookup_insert_Some in Hreg as [[_ <-]|[_ Hreg]];
      [apply keep_in_place | by rewrite lookup_empty in Hreg].
  - eapply visits_cons; [reflexivity | apply visits_nil].
  - reflexivity.
  - reflexivity.
  - simpl. lia.
  - simpl. lia.
Defined.

(** ** Opposite operators *)









(** ** Weak and strict orders *)

Lemma py_eq_list h l xs ys :
  h !! l = Some (OList xs) ->
  py_eq h (VRef l) (LList ys) = eq_items h xs ys.
Proof. intros Hl. simpl. by rewrite Hl. Qed.

Lemma string_compare_refl s : String.compare s s = Eq.
Proof.
  pose proof (String.compare_antisym s s) as H.
  by destruct (String.compare s s).
Qed.

Lemma string_eqb_compare s t :
  String.eqb s t = match String.compare s t with Eq => true | _ => false end.
Proof.
  destruct (String.eqb_spec s t) as [->|Hne].
  - by rewrite string_compare_refl.
  - destruct (String.compare s t) eqn:Hcmp; try done.
    by apply String.compare_eq_iff in Hcmp.
Qed.

Section WeakOrder.

Variables weak strict : Operator.
Hypothesis weak_strict :
  (weak = OpLte /\ strict = OpLt) \/ (weak = OpGte /\ strict = OpGt).

Lemma int_order_weak x y :
  int_order weak x y = int_order strict x y || (x =? y).
Proof.
  destruct weak_strict as [[-> ->]|[-> ->]]; simpl;
    destruct (Z.leb_spec x y), (Z.ltb_spec x y), (Z.eqb_spec x y),
      (Z.leb_spec y x), (Z.ltb_spec y x); simpl; try done; lia.
Qed.

Lemma str_order_weak s t :
  str_order weak s t = str_order strict s t || String.eqb s t.
Proof.
  destruct weak_strict as [[-> ->]|[-> ->]]; simpl;
    unfold String.leb, String.ltb; rewrite string_eqb_compare.
  - by destruct (String.compare s t).
  - rewrite (String.compare_antisym s t). by destruct (String.compare t s).
Qed.

Lemma order_items_weak h ys :
  Forall (fun y => forall a,
            py_order h weak a y = or_equal h a y (py_order h strict a y)) ys ->
  forall xs,
    order_items h weak xs ys
    = match order_items h strict xs ys with
      | Ok r => Ok (r || eq_items h xs ys)
      | Raise e => Raise e
      end.
Proof.
  induction 1 as [|y ys Hy _ IH]; intros [|x xs]; simpl;
    rewrite ?int_order_weak; try done.
  destruct (py_eq h x y) eqn:Hxy; simpl.
  - apply IH.
  - rewrite Hy. unfold or_equal. rewrite Hxy.
    by destruct (py_order h strict x y).
Qed.

Lemma py_order_weak h b :
  forall a, py_order h weak a b = or_equal h a b (py_order h strict a b).
Proof.
  induction b as [|c|m|t|ys IH|kvs _] using literal_nested_ind; intros a.
  - done.
  - unfold or_equal. simpl. destruct (as_int a); [|done].
    by rewrite int_order_weak.
  - unfold or_equal. simpl. destruct (as_int a); [|done].
    by rewrite int_order_weak.
  - destruct a; simpl; try done. by rewrite str_order_weak.
  - destruct a as [| | | |l]; try done.
    destruct (h !! l) as [[xs|d]|] eqn:Hl.
    + rewrite !(py_order_list _ _ _ _ _ Hl). unfold or_equal.
      rewrite (py_eq_list _ _ _ _ Hl). by apply order_items_weak.
    + simpl. by rewrite Hl.
    + simpl. by rewrite Hl.
  - done.
Qed.

End WeakOrder.

(** X11. The weak orders are the strict ones or equality: [lte] holds exactly
    when [lt] or [eq] does, [gte] exactly when [gt] or [eq] does, on
    numbers, strings and lists alike, and a weak order raises exactly
    when the strict one does. *)
Theorem compare_weak_is_strict_or_equal h a b :
  _compare h a OpLte b = or_equal h a b (_compare h a OpLt b)
  /\ _compare h a OpGte b = or_equal h a b (_compare h a OpGt b).
Proof.
  split; simpl; apply py_order_weak; auto.
Qed.

(** * Properties of the endpoints (main.py) *)

(** ** Runs through the endpoints *)

Lemma visit_ok_state_dict reg graph n r h next r' h' :
  visit reg graph n (r, h) = (Ok next, (r', h')) ->
  is_dict h' (Run.state r') = true.
Proof.
  rewrite visit_eq. simpl.
  destruct (GraphDef.nodes graph !! n) as [node|]; [|done].
  destruct (ToolRegistry.get reg (NodeDef.tool node)) as [tool|e]; [|done].
  destruct (tool (Run.state r) h) as [[v|e] h1]; [|done].
  destruct v as [| | | |l]; try done.
  destruct (h1 !! l) as [[xs|d]|] eqn:Hl; try done.
  intros [= _ <- <-]. simpl. by rewrite (lookup_app_l_Some _ _ _ _ Hl).
Qed.

Lemma visits_state_dict reg graph c ns c' :
  visits reg graph c ns c' -> ns <> [] ->
  is_dict c'.2.2 (Run.state c'.2.1) = true.
Proof.
  induction 1 as [c|n [r h] next [r' h'] ns c Hv Hrest IH]; [done|].
  intros _. destruct ns as [|n' ns].
  - inversion Hrest; subst. simpl. by eapply visit_ok_state_dict.
  - by apply IH.
Qed.

(** A run that is COMPLETED has a dict for state. *)
Lemma completed_state_dict str reg fuel graph run h run' h' :
  execute_graph str reg fuel graph run h = Some (run', h') ->
  Run.status run' = COMPLETED ->
  is_dict h' (Run.state run') = true.
Proof.
  rewrite execute_graph_settle. unfold start. simpl.
  destruct (while_loop _ _ _ _ _) as [[res [r1 h1]]|] eqn:Hloop; [|done].
  destruct (while_loop_inv _ _ _ _ _ _ _ Hloop) as (ns & c & Hvisits & _ & Hres).
  destruct res as [u|exc]; simpl; intros [= <- <-]; [|done]. intros _.
  subst c. simpl.
  apply (visits_state_dict _ _ _ _ _ Hvisits). intros ->. by inversion Hvisits.
Qed.

(** X12. [run_graph] on a graph of the store: whenever it returns, the store
    holds the run under the id drawn for it, in a terminal status; a
    response carries the status, the state and the log of that run, and
    polling the run with [get_run_state] shows the same ones; the only
    way no response is built is a FAILED run whose tool left a state that
    is not a dict.  A COMPLETED run always gets its response. *)
Theorem run_graph_stores_terminal_run
    str reg fuel run_id req GRAPHS RUNS h graph rep RUNS' h' :
  GRAPHS !! GraphRunRequest.graph_id req = Some graph ->
  run_graph str reg fuel run_id req GRAPHS RUNS h = Some (rep, RUNS', h') ->
  exists run',
    RUNS' = <[run_id := run']> RUNS
    /\ terminal (Run.status run') = true
    /\ Run.id run' = run_id
    /\ Run.graph_id run' = GraphDef.id graph
    /\ match rep with
       | Respond resp =>
           resp = GraphRunResponse.mk run_id (Run.state run')
                    (Run.status run') (Run.log run')
           /\ get_run_state run_id RUNS' h'
              = Respond (RunStateResponse.mk run_id (GraphDef.id graph)
                           (Run.status run') (Run.current_node run')
                           (Run.state run') (Run.log run') (Run.error run'))
       | Crash exc =>
           exc = ValidationError
           /\ Run.status run' = FAILED
           /\ is_dict h' (Run.state run') = false
       | Abort _ => False
       end.
Proof.
  intros Hgraph. unfold run_graph, create_run. rewrite Hgraph.
  destruct (execute_graph _ _ _ _ _ _) as [[run' h1]|] eqn:Hrun; [|done].
  destruct (execute_graph_status_terminal _ _ _ _ _ _ _ _ Hrun)
    as (Hid & Hgid & Hstatus).
  simpl in Hid, Hgid.
  destruct (is_dict h1 (Run.state run')) eqn:Hdict; intros [= <- <- <-];
    exists run'; repeat split; try done.
  - by destruct Hstatus as [->| ->].
  - unfold get_run_state. rewrite lookup_insert_eq, Hdict. by rewrite Hid, Hgid.
  - by destruct Hstatus as [->| ->].
  - destruct Hstatus as [Hc|Hf]; [|done].
    by rewrite (completed_state_dict _ _ _ _ _ _ _ _ Hrun Hc) in Hdict.
Qed.

Lemma run_graph_stores_terminal_run_witness :
  exists run',
    ({["r1" := Run.mk "r1" "g" FAILED (Some "a") VNone [] (Some "AttributeError")]}
       : gmap string Run.t) = <["r1" := run']> ∅
    /\ terminal (Run.status run') = true
    /\ Run.id run' = "r1"
    /\ Run.graph_id run' = "g"
    /\ ValidationError = ValidationError
    /\ Run.status run' = FAILED
    /\ is_dict [ODict ∅] (Run.state run') = false.
Proof.
  apply (run_graph_stores_terminal_run message none_registry 1 "r1"
           (GraphRunRequest.mk "g" ∅) {["g" := none_graph]} ∅ []
           none_graph (Crash ValidationError)
           {["r1" := Run.mk "r1" "g" FAILED (Some "a") VNone []
                       (Some "AttributeError")]}
           [ODict ∅]).
  - reflexivity.
  - reflexivity.
Defined.

(** X13. [run_graph] raises its 404 exactly when the graph id is not in the
    store, and then neither the store of runs nor the heap is touched
    and nothing is executed, whatever the fuel. *)
Theorem run_graph_aborts_iff str reg fuel run_id req GRAPHS RUNS h :
  (GRAPHS !! GraphRunRequest.graph_id req = None ->
   run_graph str reg fuel run_id req GRAPHS RUNS h
   = Some (Abort (mkHTTPException 404 "Graph not found"), RUNS, h))
  /\ (forall e RUNS' h',
        run_graph str reg fuel run_id req GRAPHS RUNS h
        = Some (Abort e, RUNS', h') ->
        GRAPHS !! GraphRunRequest.graph_id req = None).
Proof.
  unfold run_graph. split.
  - by intros ->.
  - intros e RUNS' h'.
    destruct (GRAPHS !! GraphRunRequest.graph_id req) as [graph|]; [|done].
    unfold create_run.
    destruct (execute_graph _ _ _ _ _ _) as [[run' h1]|]; [|done].
    by destruct (is_dict h1 (Run.state run')).
Qed.

Lemma run_graph_aborts_iff_witness :
  run_graph message keep_registry 5 "r1" (GraphRunRequest.mk "nope" ∅)
    {["g" := again_graph]} ∅ []
  = Some (Abort (mkHTTPException 404 "Graph not found"), ∅, []).
Proof.
  apply (run_graph_aborts_iff message keep_registry 5 "r1"
           (GraphRunRequest.mk "nope" ∅) {["g" := again_graph]} ∅ []).
  reflexivity.
Defined.

(** X14. The two modes run the same thing: [run_graph_async] stores a
    PENDING run with an empty log and answers PENDING, and its
    background task, once run, leaves the store of runs and the heap
    exactly as [run_graph] leaves them for the same request. *)
Theorem run_graph_async_then_task str reg fuel run_id req GRAPHS RUNS h graph :
  GRAPHS !! GraphRunRequest.graph_id req = Some graph ->
  exists task run0 h0,
    run_graph_async run_id req GRAPHS RUNS h
    = (Respond (GraphRunStartResponse.mk run_id PENDING, task),
       <[run_id := run0]> RUNS, h0)
    /\ Run.status run0 = PENDING
    /\ Run.log run0 = []
    /\ Run.graph_id run0 = GraphDef.id graph
    /\ background_task str reg fuel task (<[run_id := run0]> RUNS) h0
       = (fun out => (out.1.2, out.2))
           <$> run_graph str reg fuel run_id req GRAPHS RUNS h.
Proof.
  intros Hgraph. unfold run_graph_async, run_graph, background_task, create_run.
  rewrite Hgraph. eexists _, _, _. split; [reflexivity|]. simpl.
  repeat split.
  destruct (execute_graph _ _ _ _ _ _) as [[run' h1]|]; [|done].
  rewrite insert_insert_eq. by destruct (is_dict h1 (Run.state run')).
Qed.

Lemma run_graph_async_then_task_witness :
  exists task run0 h0,
    run_graph_async "r1" (GraphRunRequest.mk "g" {["count" := VInt 0]})
      {["g" := count_graph]} ∅ []
    = (Respond (GraphRunStartResponse.mk "r1" PENDING, task),
       <["r1" := run0]> ∅, h0)
    /\ Run.status run0 = PENDING
    /\ Run.log run0 = []
    /\ Run.graph_id run0 = "g"
    /\ background_task message count_registry 3 task (<["r1" := run0]> ∅) h0
       = (fun out => (out.1.2, out.2))
           <$> run_graph message count_registry 3 "r1"
                 (GraphRunRequest.mk "g" {["count" := VInt 0]})
                 {["g" := count_graph]} ∅ [].
Proof.
  apply (run_graph_async_then_task message count_registry 3 "r1"
           (GraphRunRequest.mk "g" {["count" := VInt 0]})
           {["g" := count_graph]} ∅ [] count_graph).
  reflexivity.
Defined.

(** ** The store of graphs *)

Lemma nodes_dict_names nodes k n :
  nodes_dict nodes !! k = Some n -> NodeDef.name n = k /\ n ∈ nodes.
Proof.
  rewrite nodes_dict_lookup. intros Hlast.
  apply last_Some in Hlast as [front Hfront].
  assert (In n (List.filter (has_name k) nodes)) as Hin.
  { rewrite Hfront. apply in_or_app. right. by left. }
  apply List.filter_In in Hin as [Hin Hname].
  split; [by apply String.eqb_eq | by apply list_elem_of_In].
Qed.

(** X15. [create_graph] keeps the store of graphs sound: the graph it stores
    can be looked up under its id, has its start node among its nodes
    and indexes every node by that node's name; the graphs stored under
    other ids are untouched. *)
Theorem create_graph_keeps_store_ok graph_id req GRAPHS :
  map_Forall (fun _ g => graph_ok g) GRAPHS ->
  map_Forall (fun _ g => graph_ok g) (create_graph graph_id req GRAPHS).2
  /\ (forall other, other <> graph_id ->
        (create_graph graph_id req GRAPHS).2 !! other = GRAPHS !! other)
  /\ (forall r, (create_graph graph_id req GRAPHS).1 = inr r ->
        r = graph_id
        /\ exists graph,
            (create_graph graph_id req GRAPHS).2 !! graph_id = Some graph
            /\ GraphDef.id graph = graph_id
            /\ GraphDef.edges graph = GraphCreateRequest.edges req
            /\ GraphDef.start_node graph = GraphCreateRequest.start_node req).
Proof.
  intros Hok. unfold create_graph.
  destruct (nodes_dict (GraphCreateRequest.nodes req)
              !! GraphCreateRequest.start_node req) as [node|] eqn:Hstart; simpl.
  - split; [|split].
    + apply map_Forall_insert_2; [|done]. split; simpl.
      * by exists node.
      * intros k n Hk. by apply nodes_dict_names in Hk as [? _].
    + intros other Hne. by rewrite lookup_insert_ne.
    + intros r [= <-]. split; [done|]. eexists. by rewrite lookup_insert_eq.
  - split; [done|]. split; done.
Qed.

Lemma create_graph_keeps_store_ok_witness :
  map_Forall (fun _ g => graph_ok g) (create_graph "g1" ghost_request ∅).2.
Proof.
  apply (create_graph_keeps_store_ok "g1" ghost_request ∅).
  apply map_Forall_empty.
Defined.

(** ** The log stream *)







(** * Properties of the code review workflow (workflows_code_review.py) *)

(** ** The tools, one by one *)

Section CodeReviewFacts.

Variable py_str : heap -> pyval -> string.
Variable findall : string -> list string.
Variable splitlines : string -> list string.
Variable strip : string -> string.
Variable list_gte : heap -> list pyval -> list pyval -> result bool.

Lemma in_place_lookup (h ext : heap) l o o' :
  h !! l = Some o -> (<[l := o']> (h ++ ext)) !! l = Some o'.
Proof.
  intros Hl. apply list_lookup_insert_eq.
  apply lookup_lt_Some in Hl. rewrite length_app. lia.
Qed.

Lemma in_place_others (h ext : heap) l l' o' :
  l' <> l -> (l' < List.length h)%nat ->
  (<[l := o']> (h ++ ext)) !! l' = h !! l'.
Proof.
  intros Hne Hlt. rewrite list_lookup_insert_ne by done.
  by apply lookup_app_l.
Qed.

Lemma extract_functions_on_dict l d h :
  h !! l = Some (ODict d) ->
  extract_functions py_str findall (VRef l) h
  = (Ok (VRef l),
     <[l := ODict
              (<["function_count" :=
                   VInt (Z.of_nat (List.length (findall (_get_code py_str h d))))]>
                 (<["functions" := VRef (List.length h)]> d))]>
       (h ++ [OList (map VStr (findall (_get_code py_str h d)))])).
Proof. intros Hl. unfold extract_functions, dict_of. by rewrite Hl. Qed.

Lemma check_complexity_on_dict l d h :
  h !! l = Some (ODict d) ->
  check_complexity py_str splitlines strip (VRef l) h
  = (Ok (VRef l),
     <[l := ODict
              (<["complexity_score" :=
                   VInt (complexity_of
                           (Z.of_nat (List.length
                              (nonblank_lines splitlines strip
                                 (_get_code py_str h d)))))]>
                 (<["line_count" :=
                      VInt (Z.of_nat (List.length
                              (nonblank_lines splitlines strip
                                 (_get_code py_str h d))))]> d))]> h).
Proof. intros Hl. unfold check_complexity, dict_of. by rewrite Hl. Qed.

Lemma detect_basic_issues_on_dict l d h :
  h !! l = Some (ODict d) ->
  detect_basic_issues py_str (VRef l) h
  = (Ok (VRef l),
     <[l := ODict
              (<["issue_count" :=
                   VInt (Z.of_nat (List.length (issues_of (_get_code py_str h d))))]>
                 (<["issues" := VRef (List.length h)]> d))]>
       (h ++ [OList (map VStr (issues_of (_get_code py_str h d)))])).
Proof. intros Hl. unfold detect_basic_issues, dict_of. by rewrite Hl. Qed.

Lemma suggest_improvements_on_dict l d h c i :
  h !! l = Some (ODict d) ->
  as_int (default (VInt 5) (d !! "complexity_score")) = Some c ->
  as_int (default (VInt 0) (d !! "issue_count")) = Some i ->
  exists suggestions,
    suggest_improvements (VRef l) h
    = (Ok (VRef l),
       <[l := ODict
                (<["quality_threshold" :=
                     default (VInt 7) (d !! "quality_threshold")]>
                   (<["quality_score" := VInt (quality_of c i)]>
                      (<["suggestions" := VRef (List.length h)]> d)))]>
         (h ++ [OList (map VStr suggestions)])).
Proof.
  intros Hl Hc Hi. unfold suggest_improvements, dict_of.
  rewrite Hl, Hc, Hi. eexists. do 3 f_equal.
  by rewrite !lookup_insert_ne.
Qed.

Lemma evaluate_quality_on_dict l d h q t :
  h !! l = Some (ODict d) ->
  as_int (default (VInt 0) (d !! "quality_score")) = Some q ->
  as_int (default (VInt 7) (d !! "quality_threshold")) = Some t ->
  evaluate_quality list_gte (VRef l) h
  = (Ok (VRef l), <[l := ODict (<["quality_ok" := VBool (t <=? q)]> d)]> h).
Proof.
  intros Hl Hq Ht. unfold evaluate_quality, dict_of, value_gte.
  by rewrite Hl, Hq, Ht.
Qed.

End CodeReviewFacts.

Lemma complexity_of_range n : 1 <= complexity_of n <= 10.
Proof. unfold complexity_of. lia. Qed.

Lemma quality_of_range c i : 0 <= quality_of c i <= 10.
Proof. unfold quality_of. lia. Qed.

Lemma issues_of_count code : (List.length (issues_of code) <= 3)%nat.
Proof.
  unfold issues_of.
  destruct (contains "print(" code), (contains "TODO" code),
    (contains "  " code); simpl; lia.
Qed.

Local Ltac written_key :=
  let k := fresh "k" in
  let Hk := fresh "Hk" in
  intros k Hk;
  repeat (apply elem_of_cons in Hk as [->|Hk]);
  [by simplify_map_eq.. | by apply elem_of_nil in Hk].

(** X17. The five tools work in place: given a dict, a tool that returns
    returns that same dict object; it assigns its own keys and leaves
    every other key of the state as it was; it allocates new objects but
    changes no object other than the state, so no list or dict that an
    earlier log snapshot holds is ever touched.  A tool that raises has
    written nothing. *)
Theorem code_review_tools_work_in_place
    py_str findall splitlines strip list_gte name tool l d h res h' :
  register_code_review_tools py_str findall splitlines strip list_gte ∅ !! name
  = Some tool ->
  h !! l = Some (ODict d) ->
  tool (VRef l) h = (res, h') ->
  match res with
  | Ok v =>
      v = VRef l
      /\ (List.length h <= List.length h')%nat
      /\ (forall l', l' <> l -> (l' < List.length h)%nat -> h' !! l' = h !! l')
      /\ exists d',
          h' !! l = Some (ODict d')
          /\ (forall k, k ∉ keys_written name -> d' !! k = d !! k)
          /\ (forall k, k ∈ keys_written name -> is_Some (d' !! k))
  | Raise exc => h' = h
  end.
Proof.
  intros Hreg Hl.
  assert (forall (o' : pyobj) (ext : heap),
            (List.length h <= List.length (<[l := o']> (h ++ ext)))%nat) as Hlen.
  { intros o' ext. rewrite length_insert, length_app. lia. }
  assert (forall (o' : pyobj) (ext : heap) l',
            l' <> l -> (l' < List.length h)%nat ->
            (<[l := o']> (h ++ ext)) !! l' = h !! l') as Hothers.
  { intros o' ext l' Hne Hlt. by apply in_place_others. }
  assert (forall o' : pyobj, (<[l := o']> h) !! l = Some o') as Hsame.
  { intros o'. apply list_lookup_insert_eq. by apply lookup_lt_Some in Hl. }
  unfold register_code_review_tools, ToolRegistry.register in Hreg.
  rewrite !lookup_insert in Hreg. unfold keys_written.
  repeat case_decide; subst; simplify_eq; try done.
  - (* evaluate_quality *)
    unfold evaluate_quality, dict_of. rewrite Hl.
    destruct (value_gte _ _ _ _) as [ok|exc]; intros [= <- <-]; [|done].
    split; [done|]. split; [by rewrite length_insert|].
    split; [intros l' ? ?; by apply list_lookup_insert_ne|].
    eexists. split; [apply Hsame|].
    split.
    + intros k Hk. rewrite lookup_insert_ne; [done|]. set_solver.
    + intros k Hk. apply list_elem_of_singleton in Hk as ->.
      by rewrite lookup_insert_eq.
  - (* suggest_improvements *)
    unfold suggest_improvements, dict_of. rewrite Hl.
    destruct (as_int (default (VInt 5) (d !! "complexity_score"))) as [c|];
      [|by intros [= <- <-]].
    destruct (as_int (default (VInt 0) (d !! "issue_count"))) as [i|];
      intros [= <- <-]; [|done].
    split; [done|]. split; [apply Hlen|]. split; [apply Hothers|].
    eexists. split; [by eapply in_place_lookup|]. split.
    + intros k Hk. rewrite !lookup_insert_ne; [done|set_solver..].
    + written_key.
  - (* detect_basic_issues *)
    rewrite (detect_basic_issues_on_dict _ _ _ _ Hl). intros [= <- <-].
    split; [done|]. split; [apply Hlen|]. split; [apply Hothers|].
    eexists. split; [by eapply in_place_lookup|]. split.
    + intros k Hk. rewrite !lookup_insert_ne; [done|set_solver..].
    + written_key.
  - (* check_complexity *)
    rewrite (check_complexity_on_dict _ _ _ _ _ _ Hl). intros [= <- <-].
    split; [done|]. split; [by rewrite length_insert|].
    split; [intros l' ? ?; by apply list_lookup_insert_ne|].
    eexists. split; [apply Hsame|].
    split.
    + intros k Hk. rewrite !lookup_insert_ne; [done|set_solver..].
    + written_key.
  - (* extract_functions *)
    rewrite (extract_functions_on_dict _ _ _ _ _ Hl). intros [= <- <-].
    split; [done|]. split; [apply Hlen|]. split; [apply Hothers|].
    eexists. split; [by eapply in_place_lookup|]. split.
    + intros k Hk. rewrite !lookup_insert_ne; [done|set_solver..].
    + written_key.
Qed.

Lemma code_review_tools_work_in_place_witness :
  match (detect_basic_issues example_str (VRef 0%nat) review_heap).1 with
  | Ok v =>
      v = VRef 0%nat
      /\ (List.length review_heap
          <= List.length (detect_basic_issues example_str (VRef 0%nat) review_heap).2)%nat
      /\ (forall l', l' <> 0%nat -> (l' < List.length review_heap)%nat ->
            (detect_basic_issues example_str (VRef 0%nat) review_heap).2 !! l'
            = review_heap !! l')
      /\ exists d',
          (detect_basic_issues example_str (VRef 0%nat) review_heap).2 !! 0%nat
          = Some (ODict d')
          /\ (forall k, k ∉ keys_written "detect_basic_issues" ->
                d' !! k
                = (<["author" := VStr "me"]> {["code" := VStr "print(1)  # TODO"]}
                     : gmap string pyval) !! k)
          /\ (forall k, k ∈ keys_written "detect_basic_issues" -> is_Some (d' !! k))
  | Raise exc =>
      (detect_basic_issues example_str (VRef 0%nat) review_heap).2 = review_heap
  end.
Proof.
  apply (code_review_tools_work_in_place example_str example_findall
           example_splitlines example_strip example_list_gte
           "detect_basic_issues" (detect_basic_issues example_str) 0%nat
           (<["author" := VStr "me"]> {["code" := VStr "print(1)  # TODO"]})
           review_heap).
  - reflexivity.
  - reflexivity.
  - reflexivity.
Defined.

(** X18. The scores the tools store are in range, whatever the code and the
    state: [complexity_score] is between 1 and 10; [issue_count] is the
    length of the [issues] list and at most 3; [function_count] is the
    length of the [functions] list; when [suggest_improvements] returns,
    [quality_score] is between 0 and 10 and [quality_threshold] is the
    one the state had, or 7 when it had none, and it raises [TypeError]
    only when [complexity_score] or [issue_count] holds something that
    is not a number. *)
Theorem code_review_scores_in_range py_str findall splitlines strip l d h :
  h !! l = Some (ODict d) ->
  (exists h' d' n c,
      check_complexity py_str splitlines strip (VRef l) h = (Ok (VRef l), h')
      /\ h' !! l = Some (ODict d')
      /\ d' !! "line_count" = Some (VInt n) /\ 0 <= n
      /\ d' !! "complexity_score" = Some (VInt c) /\ 1 <= c <= 10)
  /\ (exists h' d' issues_list issues,
        detect_basic_issues py_str (VRef l) h = (Ok (VRef l), h')
        /\ h' !! l = Some (ODict d')
        /\ d' !! "issues" = Some (VRef issues_list)
        /\ h' !! issues_list = Some (OList issues)
        /\ d' !! "issue_count" = Some (VInt (Z.of_nat (List.length issues)))
        /\ (List.length issues <= 3)%nat)
  /\ (exists h' d' functions names,
        extract_functions py_str findall (VRef l) h = (Ok (VRef l), h')
        /\ h' !! l = Some (ODict d')
        /\ d' !! "functions" = Some (VRef functions)
        /\ h' !! functions = Some (OList names)
        /\ d' !! "function_count" = Some (VInt (Z.of_nat (List.length names))))
  /\ (forall res h',
        suggest_improvements (VRef l) h = (res, h') ->
        match res with
        | Ok _ =>
            exists d' q,
              h' !! l = Some (ODict d')
              /\ d' !! "quality_score" = Some (VInt q) /\ 0 <= q <= 10
              /\ d' !! "quality_threshold"
                 = Some (default (VInt 7) (d !! "quality_threshold"))
        | Raise exc =>
            exc = TypeError /\ h' = h
            /\ (as_int (default (VInt 5) (d !! "complexity_score")) = None
                \/ as_int (default (VInt 0) (d !! "issue_count")) = None)
        end).
Proof.
  intros Hl. assert (l < List.length h)%nat as Hlt by by eapply lookup_lt_Some.
  split; [|split; [|split]].
  - rewrite (check_complexity_on_dict _ _ _ _ _ _ Hl). eexists _, _, _, _.
    split; [done|]. split.
    { apply list_lookup_insert_eq. done. }
    split; [by simplify_map_eq|]. split; [lia|].
    split; [by simplify_map_eq|]. apply complexity_of_range.
  - rewrite (detect_basic_issues_on_dict _ _ _ _ Hl). eexists _, _, _, _.
    split; [done|]. split; [by eapply in_place_lookup|].
    split; [by simplify_map_eq|]. split.
    { rewrite list_lookup_insert_ne by lia. apply heap_lookup_new. }
    rewrite length_map. split; [by simplify_map_eq|]. apply issues_of_count.
  - rewrite (extract_functions_on_dict _ _ _ _ _ Hl). eexists _, _, _, _.
    split; [done|]. split; [by eapply in_place_lookup|].
    split; [by simplify_map_eq|]. split.
    { rewrite list_lookup_insert_ne by lia. apply heap_lookup_new. }
    rewrite length_map. by simplify_map_eq.
  - intros res h'. unfold suggest_improvements, dict_of. rewrite Hl.
    destruct (as_int (default (VInt 5) (d !! "complexity_score"))) as [c|];
      [|intros [= <- <-]; repeat split; by left].
    destruct (as_int (default (VInt 0) (d !! "issue_count"))) as [i|];
      intros [= <- <-]; [|repeat split; by right].
    eexists _, _. split; [by eapply in_place_lookup|].
    split; [by simplify_map_eq|]. split; [apply quality_of_range|].
    by simplify_map_eq.
Qed.

Lemma code_review_scores_in_range_witness :
  exists h' d' n c,
    check_complexity example_str example_splitlines example_strip
      (VRef 0%nat) review_heap = (Ok (VRef 0%nat), h')
    /\ h' !! 0%nat = Some (ODict d')
    /\ d' !! "line_count" = Some (VInt n) /\ 0 <= n
    /\ d' !! "complexity_score" = Some (VInt c) /\ 1 <= c <= 10.
Proof.
  apply (code_review_scores_in_range example_str example_findall
           example_splitlines example_strip 0%nat
           (<["author" := VStr "me"]> {["code" := VStr "print(1)  # TODO"]})
           review_heap).
  reflexivity.
Defined.

(** ** The sample workflow *)

Lemma visits_app reg graph c ns c' ms c'' :
  visits reg graph c ns c' ->
  visits reg graph c' ms c'' ->
  visits reg graph c (ns ++ ms) c''.
Proof.
  induction 1 as [c|n s next s' ns c Hv _ IH]; intros Hrest; simpl; [done|].
  eapply visits_cons; [exact Hv | by apply IH].
Qed.

(** A visit whose tool works in place. *)
Lemma visit_in_place reg graph n r h node tool l h1 d1 next :
  GraphDef.nodes graph !! n = Some node ->
  reg !! NodeDef.tool node = Some tool ->
  Run.state r = VRef l ->
  tool (VRef l) h = (Ok (VRef l), h1) ->
  h1 !! l = Some (ODict d1) ->
  _next_node_name (h1 ++ [ODict d1]) graph n (VRef l) = Ok next ->
  exists r',
    visit reg graph n (r, h) = (Ok next, (r', h1 ++ [ODict d1]))
    /\ Run.state r' = VRef l
    /\ (h1 ++ [ODict d1]) !! l = Some (ODict d1).
Proof.
  intros Hnode Hreg Hstate Htool Hl Hnext.
  assert (tool (Run.state r) h = (Ok (VRef l), h1)) as Htool'
    by by rewrite Hstate.
  rewrite (visit_logged _ _ _ _ _ _ _ _ _ _ Hnode Hreg Htool' Hl), Hnext.
  eexists. split; [done|]. split; [done|]. by apply lookup_app_l_Some.
Qed.

Lemma sample_next_after_evaluate h graph_id l d ok :
  h !! l = Some (ODict d) ->
  d !! "quality_ok" = Some (VBool ok) ->
  _next_node_name h (sample_graph graph_id) "evaluate_quality" (VRef l)
  = Ok (if ok then None else Some "extract_functions").
Proof.
  intros Hl Hok. unfold _next_node_name. simpl.
  unfold edge_matches, state_get. simpl. rewrite Hl, Hok. by destruct ok.
Qed.

Section SampleWorkflow.

Variable py_str : heap -> pyval -> string.
Variable findall : string -> list string.
Variable splitlines : string -> list string.
Variable strip : string -> string.
Variable list_gte : heap -> list pyval -> list pyval -> result bool.
Variable _tools : gmap string ToolFunc.
Variable graph_id : string.

Let reg : gmap string ToolFunc :=
  register_code_review_tools py_str findall splitlines strip list_gte _tools.

Lemma get_code_text h d d' :
  code_is_text d -> d' !! "code" = d !! "code" ->
  _get_code py_str h d' = code_text d.
Proof.
  unfold code_is_text, _get_code, code_text. intros Htext ->.
  by destruct (d !! "code") as [[]|].
Qed.

(** What the pass needs of each tool: the keys it reads and the keys it
    leaves alone. *)
Lemma extract_functions_keeps l d h :
  h !! l = Some (ODict d) ->
  exists h1 d1,
    extract_functions py_str findall (VRef l) h = (Ok (VRef l), h1)
    /\ h1 !! l = Some (ODict d1)
    /\ d1 !! "code" = d !! "code"
    /\ d1 !! "quality_threshold" = d !! "quality_threshold".
Proof.
  intros Hl. rewrite (extract_functions_on_dict _ _ _ _ _ Hl).
  eexists _, _. split; [done|]. split; [by eapply in_place_lookup|].
  by rewrite !lookup_insert_ne.
Qed.

Lemma check_complexity_keeps l d h code :
  h !! l = Some (ODict d) ->
  _get_code py_str h d = code ->
  exists h1 d1,
    check_complexity py_str splitlines strip (VRef l) h = (Ok (VRef l), h1)
    /\ h1 !! l = Some (ODict d1)
    /\ d1 !! "code" = d !! "code"
    /\ d1 !! "quality_threshold" = d !! "quality_threshold"
    /\ d1 !! "complexity_score"
       = Some (VInt (complexity_of
                       (Z.of_nat (List.length
                                    (nonblank_lines splitlines strip code))))).
Proof.
  intros Hl <-. rewrite (check_complexity_on_dict _ _ _ _ _ _ Hl).
  eexists _, _. split; [done|]. split.
  { apply list_lookup_insert_eq. by eapply lookup_lt_Some. }
  rewrite lookup_insert_eq. by rewrite !lookup_insert_ne.
Qed.

Lemma detect_basic_issues_keeps l d h code :
  h !! l = Some (ODict d) ->
  _get_code py_str h d = code ->
  exists h1 d1,
    detect_basic_issues py_str (VRef l) h = (Ok (VRef l), h1)
    /\ h1 !! l = Some (ODict d1)
    /\ d1 !! "code" = d !! "code"
    /\ d1 !! "quality_threshold" = d !! "quality_threshold"
    /\ d1 !! "complexity_score" = d !! "complexity_score"
    /\ d1 !! "issue_count"
       = Some (VInt (Z.of_nat (List.length (issues_of code)))).
Proof.
  intros Hl <-. rewrite (detect_basic_issues_on_dict _ _ _ _ Hl).
  eexists _, _. split; [done|]. split; [by eapply in_place_lookup|].
  rewrite lookup_insert_eq. by rewrite !lookup_insert_ne.
Qed.

Lemma suggest_improvements_keeps l d h c i :
  h !! l = Some (ODict d) ->
  d !! "complexity_score" = Some (VInt c) ->
  d !! "issue_count" = Some (VInt i) ->
  exists h1 d1,
    suggest_improvements (VRef l) h = (Ok (VRef l), h1)
    /\ h1 !! l = Some (ODict d1)
    /\ d1 !! "code" = d !! "code"
    /\ d1 !! "quality_threshold"
       = Some (default (VInt 7) (d !! "quality_threshold"))
    /\ d1 !! "quality_score" = Some (VInt (quality_of c i)).
Proof.
  intros Hl Hc Hi.
  destruct (suggest_improvements_on_dict l d h c i Hl) as [suggestions ->];
    [by rewrite Hc | by rewrite Hi |].
  eexists _, _. split; [done|]. split; [by eapply in_place_lookup|].
  rewrite lookup_insert_eq, (lookup_insert_ne _ "quality_threshold" "quality_score")
    by done.
  rewrite lookup_insert_eq. by rewrite !lookup_insert_ne.
Qed.

Lemma evaluate_quality_keeps l d h q t :
  h !! l = Some (ODict d) ->
  d !! "quality_score" = Some (VInt q) ->
  threshold_of d = Some t ->
  exists h1 d1,
    evaluate_quality list_gte (VRef l) h = (Ok (VRef l), h1)
    /\ h1 !! l = Some (ODict d1)
    /\ d1 !! "code" = d !! "code"
    /\ d1 !! "quality_threshold" = d !! "quality_threshold"
    /\ d1 !! "quality_ok" = Some (VBool (t <=? q)).
Proof.
  intros Hl Hq Ht.
  rewrite (evaluate_quality_on_dict list_gte l d h q t Hl);
    [|by rewrite Hq|done].
  eexists _, _. split; [done|]. split.
  { apply list_lookup_insert_eq. by eapply lookup_lt_Some. }
  rewrite lookup_insert_eq. by rewrite !lookup_insert_ne.
Qed.

Lemma reg_lookup :
  reg !! "extract_functions" = Some (extract_functions py_str findall)
  /\ reg !! "check_complexity" = Some (check_complexity py_str splitlines strip)
  /\ reg !! "detect_basic_issues" = Some (detect_basic_issues py_str)
  /\ reg !! "suggest_improvements" = Some suggest_improvements
  /\ reg !! "evaluate_quality" = Some (evaluate_quality list_gte).
Proof.
  unfold reg, register_code_review_tools, ToolRegistry.register.
  repeat split; by simplify_map_eq.
Qed.

(** The first four nodes of a pass, up to [evaluate_quality]. *)
Lemma review_first_four r h l d :
  Run.state r = VRef l ->
  h !! l = Some (ODict d) ->
  code_is_text d ->
  exists r4 h4 d4,
    visits reg (sample_graph graph_id) (Some "extract_functions", (r, h))
      (take 4 sample_pass) (Some "evaluate_quality", (r4, h4))
    /\ Run.state r4 = VRef l
    /\ h4 !! l = Some (ODict d4)
    /\ d4 !! "code" = d !! "code"
    /\ d4 !! "quality_threshold"
       = Some (default (VInt 7) (d !! "quality_threshold"))
    /\ d4 !! "quality_score" = Some (VInt (review_quality splitlines strip (code_text d))).
Proof.
  intros Hstate Hl Htext.
  destruct reg_lookup as (Hreg1 & Hreg2 & Hreg3 & Hreg4 & _).
  (* extract_functions *)
  destruct (extract_functions_keeps l d h Hl)
    as (h1 & d1 & Htool1 & Hl1 & Hcode1 & Hthr1).
  destruct (visit_in_place reg (sample_graph graph_id) "extract_functions"
              r h (NodeDef.mk "extract_functions" "extract_functions") _ l h1 d1
              (Some "check_complexity") eq_refl Hreg1 Hstate Htool1 Hl1 eq_refl)
    as (r1 & Hv1 & Hs1 & Hl1').
  (* check_complexity *)
  destruct (check_complexity_keeps l d1 _ (code_text d) Hl1')
    as (h2 & d2 & Htool2 & Hl2 & Hcode2 & Hthr2 & Hcomplexity);
    [by apply get_code_text|].
  destruct (visit_in_place reg (sample_graph graph_id) "check_complexity"
              r1 _ (NodeDef.mk "check_complexity" "check_complexity") _ l h2 d2
              (Some "detect_basic_issues") eq_refl Hreg2 Hs1 Htool2 Hl2 eq_refl)
    as (r2 & Hv2 & Hs2 & Hl2').
  (* detect_basic_issues *)
  destruct (detect_basic_issues_keeps l d2 _ (code_text d) Hl2')
    as (h3 & d3 & Htool3 & Hl3 & Hcode3 & Hthr3 & Hcomplexity3 & Hissues);
    [apply get_code_text; [done | congruence]|].
  destruct (visit_in_place reg (sample_graph graph_id) "detect_basic_issues"
              r2 _ (NodeDef.mk "detect_basic_issues" "detect_basic_issues") _
              l h3 d3 (Some "suggest_improvements")
              eq_refl Hreg3 Hs2 Htool3 Hl3 eq_refl)
    as (r3 & Hv3 & Hs3 & Hl3').
  (* suggest_improvements *)
  destruct (suggest_improvements_keeps l d3 _ _ _ Hl3'
              (eq_trans Hcomplexity3 Hcomplexity) Hissues)
    as (h4 & d4 & Htool4 & Hl4 & Hcode4 & Hthr4 & Hquality).
  destruct (visit_in_place reg (sample_graph graph_id) "suggest_improvements"
              r3 _ (NodeDef.mk "suggest_improvements" "suggest_improvements") _
              l h4 d4 (Some "evaluate_quality")
              eq_refl Hreg4 Hs3 Htool4 Hl4 eq_refl)
    as (r4 & Hv4 & Hs4 & Hl4').
  exists r4, (h4 ++ [ODict d4]), d4. split.
  { eapply visits_cons; [exact Hv1|]. eapply visits_cons; [exact Hv2|].
    eapply visits_cons; [exact Hv3|]. eapply visits_cons; [exact Hv4|].
    apply visits_nil. }
  split; [done|]. split; [done|]. split; [congruence|].
  split; [|done]. by rewrite Hthr4, Hthr3, Hthr2, Hthr1.
Qed.

(** One pass: the five nodes in order, then back to the first node or
    out of the loop, by [quality_ok]; the code and the threshold are the
    same at the end of the pass as at its beginning. *)
Lemma review_pass r h l d t :
  Run.state r = VRef l ->
  h !! l = Some (ODict d) ->
  code_is_text d ->
  threshold_of d = Some t ->
  exists r' h' d',
    visits reg (sample_graph graph_id) (Some "extract_functions", (r, h))
      sample_pass
      (if t <=? review_quality splitlines strip (code_text d)
       then None else Some "extract_functions", (r', h'))
    /\ Run.state r' = VRef l
    /\ h' !! l = Some (ODict d')
    /\ d' !! "code" = d !! "code"
    /\ threshold_of d' = Some t
    /\ d' !! "quality_ok" = Some (VBool (t <=? review_quality splitlines strip (code_text d))).
Proof.
  intros Hstate Hl Htext Ht.
  destruct reg_lookup as (_ & _ & _ & _ & Hreg5).
  destruct (review_first_four r h l d Hstate Hl Htext)
    as (r4 & h4 & d4 & Hfour & Hs4 & Hl4 & Hcode4 & Hthr4 & Hquality).
  assert (threshold_of d4 = Some t) as Ht4.
  { unfold threshold_of in *. by rewrite Hthr4. }
  destruct (evaluate_quality_keeps l d4 _ _ t Hl4 Hquality Ht4)
    as (h5 & d5 & Htool5 & Hl5 & Hcode5 & Hthr5 & Hok).
  destruct (visit_in_place reg (sample_graph graph_id) "evaluate_quality"
              r4 _ (NodeDef.mk "evaluate_quality" "evaluate_quality") _
              l h5 d5
              (if t <=? review_quality splitlines strip (code_text d)
               then None else Some "extract_functions")
              eq_refl Hreg5 Hs4 Htool5 Hl5)
    as (r5 & Hv5 & Hs5 & Hl5').
  { eapply sample_next_after_evaluate; [by apply lookup_app_l_Some | exact Hok]. }
  exists r5, (h5 ++ [ODict d5]), d5. split.
  { change sample_pass with (take 4 sample_pass ++ ["evaluate_quality"]).
    eapply visits_app; [exact Hfour|].
    eapply visits_cons; [exact Hv5 | apply visits_nil]. }
  split; [done|]. split; [done|]. split; [congruence|].
  split; [|done]. unfold threshold_of in *. by rewrite Hthr5.
Qed.

(** A threshold that is not a number: [evaluate_quality] raises. *)
Lemma review_bad_threshold r h l d v :
  Run.state r = VRef l ->
  h !! l = Some (ODict d) ->
  code_is_text d ->
  d !! "quality_threshold" = Some v ->
  as_int v = None ->
  exists r4 h4,
    visits reg (sample_graph graph_id) (Some "extract_functions", (r, h))
      (take 4 sample_pass) (Some "evaluate_quality", (r4, h4))
    /\ raises_at reg (sample_graph graph_id) "evaluate_quality" r4 h4
         ToolInvocation TypeError.
Proof.
  intros Hstate Hl Htext Hthr Hv.
  destruct reg_lookup as (_ & _ & _ & _ & Hreg5).
  destruct (review_first_four r h l d Hstate Hl Htext)
    as (r4 & h4 & d4 & Hfour & Hs4 & Hl4 & Hcode4 & Hthr4 & Hquality).
  exists r4, h4. split; [done|].
  eapply (raises_tool_invocation _ _ _ _ _
            (NodeDef.mk "evaluate_quality" "evaluate_quality")
            (evaluate_quality list_gte) TypeError h4); [done| |].
  - unfold ToolRegistry.get. simpl. by rewrite Hreg5.
  - rewrite Hs4. unfold evaluate_quality, dict_of, value_gte.
    rewrite Hl4, Hquality, Hthr4, Hthr. simpl. rewrite Hv. by destruct v.
Qed.

End SampleWorkflow.

(** X19. The sample workflow stops after one pass when the quality reaches
    the threshold: on a state whose [code] is a string (or absent) and
    whose [quality_threshold] is a number [t] (7 when absent), if the
    quality score of the code is at least [t], the run ends COMPLETED
    after exactly the five nodes in order, with [quality_ok] true, for
    any fuel of five turns or more. *)
Theorem review_completes_in_one_pass
    py_str findall splitlines strip list_gte _tools graph_id str
    run h l d t extra :
  Run.state run = VRef l ->
  h !! l = Some (ODict d) ->
  code_is_text d ->
  threshold_of d = Some t ->
  t <= review_quality splitlines strip (code_text d) ->
  exists run' h',
    execute_graph str
      (register_code_review_tools py_str findall splitlines strip list_gte _tools)
      (5 + extra) (sample_graph graph_id) run h
    = Some (run', h')
    /\ Run.status run' = COMPLETED
    /\ Run.current_node run' = None
    /\ map RunLogEntry.node (Run.log run')
       = map RunLogEntry.node (Run.log run) ++ sample_pass
    /\ Run.state run' = VRef l
    /\ state_get h' (VRef l) "quality_ok" = Ok (VBool true).
Proof.
  intros Hstate Hl Htext Ht Hquality.
  destruct (review_pass py_str findall splitlines strip list_gte _tools graph_id
              (Run.set_status RUNNING run) h l d t Hstate Hl Htext Ht)
    as (r' & h' & d' & Hvisits & Hstate' & Hl' & _ & _ & Hok).
  apply Z.leb_le in Hquality. rewrite Hquality in Hvisits, Hok.
  change (5 + extra)%nat with (List.length sample_pass + extra)%nat.
  rewrite (execute_graph_from str _ (sample_graph graph_id) run h sample_pass
             (None, (r', h')) extra Hvisits).
  simpl. rewrite while_loop_None. simpl.
  eexists _, _. split; [reflexivity|]. simpl.
  apply visits_log in Hvisits. simpl in Hvisits.
  repeat split; try done. unfold state_get. by rewrite Hl', Hok.
Qed.

Lemma review_completes_in_one_pass_witness :
  exists run' h',
    execute_graph message example_registry 5 (sample_graph "g")
      (new_run (VRef 0%nat)) [ODict {["code" := VStr "x = 1"]}]
    = Some (run', h')
    /\ Run.status run' = COMPLETED
    /\ Run.current_node run' = None
    /\ map RunLogEntry.node (Run.log run') = [] ++ sample_pass
    /\ Run.state run' = VRef 0%nat
    /\ state_get h' (VRef 0%nat) "quality_ok" = Ok (VBool true).
Proof.
  apply (review_completes_in_one_pass example_str example_findall
           example_splitlines example_strip example_list_gte ∅ "g" message
           (new_run (VRef 0%nat)) [ODict {["code" := VStr "x = 1"]}]
           0%nat {["code" := VStr "x = 1"]} 7 0%nat).
  - reflexivity.
  - reflexivity.
  - exact I.
  - reflexivity.
  - vm_compute. discriminate.
Defined.

(** X20. The sample workflow cannot improve what it reviews: no tool changes
    [code] or the threshold, so every pass gives the same score.  On a
    state whose [code] is a string (or absent) and whose
    [quality_threshold] is a number [t] (7 when absent), if the quality
    score of the code is below [t], the run goes from [evaluate_quality]
    back to [extract_functions] for ever: [execute_graph] does not
    return, whatever the turns it is given. *)
Theorem review_never_ends_below_threshold
    py_str findall splitlines strip list_gte _tools graph_id str
    run h l d t :
  Run.state run = VRef l ->
  h !! l = Some (ODict d) ->
  code_is_text d ->
  threshold_of d = Some t ->
  review_quality splitlines strip (code_text d) < t ->
  forall fuel,
    execute_graph str
      (register_code_review_tools py_str findall splitlines strip list_gte _tools)
      fuel (sample_graph graph_id) run h
    = None.
Proof.
  intros Hstate Hl Htext Ht Hquality fuel.
  rewrite execute_graph_settle. unfold start. simpl.
  rewrite (cycle_never_ends _ (sample_graph graph_id) "extract_functions"
             (fun s => exists d',
                  Run.state s.1 = VRef l /\ s.2 !! l = Some (ODict d')
                  /\ d' !! "code" = d !! "code" /\ threshold_of d' = Some t));
    [done| |by exists d].
  intros [r0 h0] (d0 & Hs0 & Hl0 & Hcode0 & Ht0). simpl in *.
  assert (code_is_text d0) as Htext0.
  { unfold code_is_text in *. by rewrite Hcode0. }
  assert (code_text d0 = code_text d) as Hsame.
  { unfold code_text. by rewrite Hcode0. }
  destruct (review_pass py_str findall splitlines strip list_gte _tools graph_id
              r0 h0 l d0 t Hs0 Hl0 Htext0 Ht0)
    as (r' & h' & d' & Hvisits & Hstate' & Hl' & Hcode' & Ht' & _).
  rewrite Hsame in Hvisits.
  apply Z.leb_gt in Hquality. rewrite Hquality in Hvisits.
  exists sample_pass, (r', h'). split; [done|]. split; [done|].
  exists d'. simpl. repeat split; try done. congruence.
Qed.

Lemma review_never_ends_below_threshold_witness :
  execute_graph message example_registry 1000 (sample_graph "g")
    (new_run (VRef 0%nat))
    [ODict (<["quality_threshold" := VInt 8]>
              {["code" := VStr "print(1)  # TODO"]})]
  = None.
Proof.
  apply (review_never_ends_below_threshold example_str example_findall
           example_splitlines example_strip example_list_gte ∅ "g" message
           (new_run (VRef 0%nat))
           [ODict (<["quality_threshold" := VInt 8]>
                     {["code" := VStr "print(1)  # TODO"]})]
           0%nat
           (<["quality_threshold" := VInt 8]>
              {["code" := VStr "print(1)  # TODO"]}) 8).
  - reflexivity.
  - reflexivity.
  - exact I.
  - reflexivity.
  - vm_compute. reflexivity.
Defined.

(** X21. A threshold that is not a number fails the run at its fifth node:
    with [quality_threshold] set to a string, to None or to a list,
    [evaluate_quality] raises [TypeError] when it compares the score
    with it, after the four nodes before it have run and been logged. *)
Theorem review_fails_on_threshold_not_a_number
    py_str findall splitlines strip list_gte _tools graph_id str
    run h l d v fuel :
  Run.state run = VRef l ->
  h !! l = Some (ODict d) ->
  code_is_text d ->
  d !! "quality_threshold" = Some v ->
  as_int v = None ->
  (5 <= fuel)%nat ->
  exists run' h',
    execute_graph str
      (register_code_review_tools py_str findall splitlines strip list_gte _tools)
      fuel (sample_graph graph_id) run h
    = Some (run', h')
    /\ Run.status run' = FAILED
    /\ Run.error run' = Some (str TypeError)
    /\ Run.current_node run' = Some "evaluate_quality"
    /\ map RunLogEntry.node (Run.log run')
       = map RunLogEntry.node (Run.log run) ++ take 4 sample_pass.
Proof.
  intros Hstate Hl Htext Hthr Hv Hfuel.
  destruct (review_bad_threshold py_str findall splitlines strip list_gte
              _tools graph_id (Run.set_status RUNNING run) h l d v
              Hstate Hl Htext Hthr Hv)
    as (r4 & h4 & Hvisits & Hraises).
  destruct (visit_raises _ _ _ _ _ _ _ Hraises)
    as (r' & h' & entries & Hvisit & Hcur & _ & Hlog & Hentries).
  exists (Run.set_error (Some (str TypeError)) (Run.set_status FAILED r')), h'.
  split.
  { eapply execute_graph_stops; [exact Hvisits | exact Hvisit |]. simpl. lia. }
  simpl. repeat split; [done|].
  apply map_eq_nil in Hentries. rewrite Hlog, Hentries, app_nil_r.
  apply visits_log in Hvisits. by simpl in Hvisits.
Qed.

Lemma review_fails_on_threshold_not_a_number_witness :
  exists run' h',
    execute_graph message example_registry 5 (sample_graph "g")
      (new_run (VRef 0%nat))
      [ODict (<["quality_threshold" := VStr "7"]> {["code" := VStr "x = 1"]})]
    = Some (run', h')
    /\ Run.status run' = FAILED
    /\ Run.error run' = Some "TypeError"
    /\ Run.current_node run' = Some "evaluate_quality"
    /\ map RunLogEntry.node (Run.log run') = [] ++ take 4 sample_pass.
Proof.
  apply (review_fails_on_threshold_not_a_number example_str example_findall
           example_splitlines example_strip example_list_gte ∅ "g" message
           (new_run (VRef 0%nat))
           [ODict (<["quality_threshold" := VStr "7"]> {["code" := VStr "x = 1"]})]
           0%nat
           (<["quality_threshold" := VStr "7"]> {["code" := VStr "x = 1"]})
           (VStr "7") 5%nat).
  - reflexivity.
  - reflexivity.
  - exact I.
  - reflexivity.
  - reflexivity.
  - lia.
Defined.
